(** * OptimizeQAMapper: a shallow embedding of
    [data_juicer/ops/mapper/optimize_qa_mapper.py]

    The mapper asks a chat model to rewrite a question/answer pair, parses the
    reply with a regular expression and writes the two halves back into the
    sample.  Python values, exceptions, [str.format], [str.strip] and the part
    of [re] the mapper relies on are modelled first; the mapper itself follows,
    method by method, with the line numbers of the source. *)

From Stdlib Require Import ZArith NArith List String Ascii Bool Lia.
From stdpp Require Import base option list gmap pretty.
Import ListNotations.

Local Open Scope N_scope.
Set Warnings "-clear-no-such-hyp".

(** ** Python [str]: a sequence of Unicode code points *)

Abbreviation str := (list N).

Module Utf8.

(** String literals of this file are UTF-8 bytes; [decode] turns them into
    code points, so that one element of a [str] is one Python character. *)
Fixpoint go (bs : list N) (need : nat) (acc : N) : str :=
  match bs with
  | [] => []
  | b :: bs' =>
      if b <? 128 then b :: go bs' 0 0
      else if b <? 192 then
        match need with
        | 0%nat => go bs' 0 0
        | 1%nat => (acc * 64 + b mod 64) :: go bs' 0 0
        | S n => go bs' n (acc * 64 + b mod 64)
        end
      else if b <? 224 then go bs' 1 (b mod 32)
      else if b <? 240 then go bs' 2 (b mod 16)
      else go bs' 3 (b mod 8)
  end.

Definition decode (s : string) : str :=
  go (map N_of_ascii (list_ascii_of_string s)) 0 0.

End Utf8.

Abbreviation u8 := Utf8.decode.

(** ['\n'] *)
Definition LF : str := [10].

(** [str.isspace] on one character, which is also what [\s] matches in a
    [str] pattern (Py_UNICODE_ISSPACE). *)
Definition isspace (c : N) : bool :=
  ((9 <=? c) && (c <=? 13)) || ((28 <=? c) && (c <=? 32))
  || (c =? 133) || (c =? 160) || (c =? 5760)
  || ((8192 <=? c) && (c <=? 8202))
  || (c =? 8232) || (c =? 8233) || (c =? 8239) || (c =? 8287) || (c =? 12288).

Fixpoint lstrip (s : str) : str :=
  match s with
  | c :: s' => if isspace c then lstrip s' else s
  | [] => []
  end.

Definition rstrip (s : str) : str := rev (lstrip (rev s)).

(** [s.strip()] *)
Definition strip (s : str) : str := rstrip (lstrip s).

(** ** Exceptions and results *)

Inductive exn : Type :=
| KeyError (key : str)
| IndexError
| AttributeError (type attr : string)
| AssertionError (msg : string)
| TypeError (msg : string)
| ValueError (msg : string)
| PatternRejected          (* re.error, or a pattern outside the modelled fragment *)
| Unmodelled (what : string)
| External (tag : N).      (* raised by a collaborator *)

Inductive result (A : Type) : Type :=
| Ok (a : A)
| Raise (e : exn).
Arguments Ok {A} a.
Arguments Raise {A} e.

Definition rbind {A B} (r : result A) (f : A -> result B) : result B :=
  match r with
  | Ok a => f a
  | Raise e => Raise e
  end.

(** ** Python values *)

#[warnings="-register-all"]
Inductive value : Type :=
| VNone
| VBool (b : bool)
| VInt (z : Z)
| VStr (s : str)
| VTuple (items : list value)
| VList (items : list value)
| VMatch (groups : list (option str)).  (* an [re.Match]; group 0 first *)

Definition type_name (v : value) : string :=
  match v with
  | VNone => "NoneType"
  | VBool _ => "bool"
  | VInt _ => "int"
  | VStr _ => "str"
  | VTuple _ => "tuple"
  | VList _ => "list"
  | VMatch _ => "re.Match"
  end.

(** Truth value, as tested by [if v:] and [v or d]. *)
Definition truthy (v : value) : bool :=
  match v with
  | VNone => false
  | VBool b => b
  | VInt z => negb (z =? 0)%Z
  | VStr s => match s with [] => false | _ => true end
  | VTuple l | VList l => match l with [] => false | _ => true end
  | VMatch _ => true
  end.

(** [v[0]] on a sequence. *)
Definition item0 (v : value) : result value :=
  match v with
  | VTuple l | VList l =>
      match l with x :: _ => Ok x | [] => Raise IndexError end
  | VStr s =>
      match s with c :: _ => Ok (VStr [c]) | [] => Raise IndexError end
  | _ => Raise (TypeError "object is not subscriptable")
  end.

(** [v.group(n)]: only match objects have the method. *)
Definition group (v : value) (n : nat) : result value :=
  match v with
  | VMatch gs =>
      match nth_error gs n with
      | Some (Some s) => Ok (VStr s)
      | Some None => Ok VNone
      | None => Raise IndexError
      end
  | _ => Raise (AttributeError (type_name v) "group")
  end.

(** [v.strip()] *)
Definition py_strip (v : value) : result value :=
  match v with
  | VStr s => Ok (VStr (strip s))
  | _ => Raise (AttributeError (type_name v) "strip")
  end.

(** ** The fragment of [re] the mapper uses *)

Module Re.

(** One-character matchers. *)
Inductive charset : Type :=
| CLit (c : N)
| CAny            (* . *)
| CSpace          (* \s *)
| CNotSpace.      (* \S *)

Inductive regex : Type :=
| Eps
| Chr (cs : charset)
| Star (greedy : bool) (cs : charset)
| Seq (r1 r2 : regex)
| Alt (r1 r2 : regex)
| Group (n : nat) (r : regex).

(** [dotall] is the flag [re.DOTALL]: without it [.] refuses ['\n']. *)
Definition cs_match (dotall : bool) (cs : charset) (c : N) : bool :=
  match cs with
  | CLit d => c =? d
  | CAny => dotall || negb (c =? 10)
  | CSpace => isspace c
  | CNotSpace => negb (isspace c)
  end.

(** *** Parsing a pattern *)

Definition special (c : N) : bool :=
  existsb (N.eqb c) [46; 94; 36; 42; 43; 63; 123; 125; 91; 93; 92; 124; 40; 41].

Definition is_alnum (c : N) : bool :=
  ((48 <=? c) && (c <=? 57)) || ((65 <=? c) && (c <=? 90))
  || ((97 <=? c) && (c <=? 122)) || (128 <=? c).

(** The class denoted by the character after a backslash. *)
Definition escape (c : N) : option charset :=
  if c =? 115 then Some CSpace
  else if c =? 83 then Some CNotSpace
  else if c =? 110 then Some (CLit 10)
  else if c =? 116 then Some (CLit 9)
  else if c =? 114 then Some (CLit 13)
  else if c =? 102 then Some (CLit 12)
  else if c =? 118 then Some (CLit 11)
  else if is_alnum c || (c =? 95) then None
  else Some (CLit c).

(** A one-character atom at the head of the pattern. *)
Definition atom (p : str) : option (charset * str) :=
  match p with
  | [] => None
  | c :: p' =>
      if c =? 46 then Some (CAny, p')
      else if c =? 92 then
        match p' with
        | e :: p'' => match escape e with
                      | Some cs => Some (cs, p'')
                      | None => None
                      end
        | [] => None
        end
      else if special c then None
      else Some (CLit c, p')
  end.

Definition is_quant (c : N) : bool :=
  (c =? 42) || (c =? 43) || (c =? 63) || (c =? 123).

(** The quantifier, if any, after a one-character atom: [*], [+], [?] and
    their lazy forms [*?], [+?], [??].  A quantifier applied to a quantifier
    and the counted and possessive forms are rejected. *)
Definition quantified (cs : charset) (p : str) : option (regex * str) :=
  let lazy_of p' :=
    match p' with
    | 63 :: p'' => Some (false, p'')
    | c :: _ => if is_quant c then None else Some (true, p')
    | [] => Some (true, p')
    end in
  match p with
  | 42 :: p' =>
      match lazy_of p' with
      | Some (g, p'') => Some (Star g cs, p'')
      | None => None
      end
  | 43 :: p' =>
      match lazy_of p' with
      | Some (g, p'') => Some (Seq (Chr cs) (Star g cs), p'')
      | None => None
      end
  | 63 :: p' =>
      match lazy_of p' with
      | Some (g, p'') =>
          Some (if g then Alt (Chr cs) Eps else Alt Eps (Chr cs), p'')
      | None => None
      end
  | 123 :: _ => None
  | _ => Some (Chr cs, p)
  end.

(** [parse_seq] reads items up to [|], [)] or the end; [parse_alt] reads an
    alternation.  [gi] is the number of groups opened so far: groups are
    numbered by their opening parenthesis.  Only one-character atoms take a
    quantifier. *)
Fixpoint parse_seq (fuel gi : nat) (p : str) : option (regex * nat * str) :=
  match fuel with
  | O => None
  | S f =>
      match p with
      | [] => Some (Eps, gi, p)
      | c :: p' =>
          if (c =? 124) || (c =? 41) then Some (Eps, gi, p)
          else if c =? 40 then
            let '(capture, gi1, body) :=
              match p' with
              | 63 :: 58 :: p'' => (false, gi, Some p'')
              | 63 :: _ => (false, gi, None)
              | _ => (true, S gi, Some p')
              end in
            match body with
            | None => None
            | Some b =>
                match parse_alt f gi1 b with
                | Some (r, gi2, 41 :: rest) =>
                    match rest with
                    | q :: _ => if is_quant q then None else
                        match parse_seq f gi2 rest with
                        | Some (r', gi3, rest') =>
                            Some (Seq (if capture then Group gi1 r else r) r', gi3, rest')
                        | None => None
                        end
                    | [] => Some (Seq (if capture then Group gi1 r else r) Eps, gi2, rest)
                    end
                | _ => None
                end
            end
          else
            match atom p with
            | Some (cs, p1) =>
                match quantified cs p1 with
                | Some (item, p2) =>
                    match parse_seq f gi p2 with
                    | Some (r', gi', rest) => Some (Seq item r', gi', rest)
                    | None => None
                    end
                | None => None
                end
            | None => None
            end
      end
  end
with parse_alt (fuel gi : nat) (p : str) : option (regex * nat * str) :=
  match fuel with
  | O => None
  | S f =>
      match parse_seq f gi p with
      | Some (r1, gi1, 124 :: p1) =>
          match parse_alt f gi1 p1 with
          | Some (r2, gi2, rest) => Some (Alt r1 r2, gi2, rest)
          | None => None
          end
      | other => other
      end
  end.

(** [re.compile]: the regex and its number of groups. *)
Definition compile (p : str) : option (regex * nat) :=
  match parse_alt (2 * length p + 2) 0 p with
  | Some (r, n, []) => Some (r, n)
  | _ => None
  end.

(** *** Backtracking matcher *)

Definition caps := list (nat * str).

Fixpoint cap (n : nat) (c : caps) : option str :=
  match c with
  | (m, s) :: c' => if Nat.eqb m n then Some s else cap n c'
  | [] => None
  end.

Section Matcher.
Context {R : Type} (dotall : bool).

Definition orelse (a b : option R) : option R :=
  match a with Some _ => a | None => b end.

Fixpoint star_greedy (cs : charset) (s : str) (k : str -> option R) : option R :=
  match s with
  | c :: s' =>
      if cs_match dotall cs c then orelse (star_greedy cs s' k) (k s) else k s
  | [] => k s
  end.

Fixpoint star_lazy (cs : charset) (s : str) (k : str -> option R) : option R :=
  orelse (k s)
    match s with
    | c :: s' => if cs_match dotall cs c then star_lazy cs s' k else None
    | [] => None
    end.

(** [rmatch r s c k]: match [r] at the head of [s] with captures [c], then
    continue with [k]; alternatives are tried in priority order. *)
Fixpoint rmatch (r : regex) (s : str) (c : caps)
    (k : str -> caps -> option R) : option R :=
  match r with
  | Eps => k s c
  | Chr cs =>
      match s with
      | x :: s' => if cs_match dotall cs x then k s' c else None
      | [] => None
      end
  | Star g cs =>
      (if g then star_greedy else star_lazy) cs s (fun s' => k s' c)
  | Seq r1 r2 => rmatch r1 s c (fun s' c' => rmatch r2 s' c' k)
  | Alt r1 r2 => orelse (rmatch r1 s c k) (rmatch r2 s c k)
  | Group n r1 =>
      rmatch r1 s c
        (fun s' c' => k s' ((n, take (length s - length s') s) :: c'))
  end.
End Matcher.

(** One match found by scanning: the matched text, the captures and what
    follows the match. *)
Record found := { whole : str; captured : caps; rest : str }.

(** A match starting exactly at the head of [s]; with [must_advance] an
    empty match is refused. *)
Definition match_here (dotall : bool) (r : regex) (must_advance : bool)
    (s : str) : option found :=
  rmatch dotall r s []
    (fun s' c =>
       if must_advance && (length s' =? length s)%nat then None
       else Some {| whole := take (length s - length s') s;
                    captured := c; rest := s' |}).

(** [pattern.search]: the leftmost match.  [must_advance] only constrains a
    match at the starting position. *)
Fixpoint search (dotall : bool) (r : regex) (must_advance : bool) (s : str)
    : option found :=
  match match_here dotall r must_advance s with
  | Some m => Some m
  | None =>
      match s with
      | _ :: s' => search dotall r false s'
      | [] => None
      end
  end.

(** What [findall] reports for one match: the text for a pattern without
    groups, the group for one group, a tuple of the groups otherwise; a
    group that took no part in the match reads as the empty string. *)
Definition item (ngroups : nat) (m : found) : value :=
  let g n := VStr (default [] (cap n (captured m))) in
  match ngroups with
  | 0%nat => VStr (whole m)
  | 1%nat => g 1%nat
  | _ => VTuple (map g (seq 1 ngroups))
  end.

(** Non-overlapping matches from left to right; after an empty match the
    next one has to advance. *)
Fixpoint scan (fuel : nat) (dotall : bool) (r : regex) (ngroups : nat)
    (must_advance : bool) (s : str) : list value :=
  match fuel with
  | O => []
  | S f =>
      match search dotall r must_advance s with
      | Some m =>
          item ngroups m
            :: scan f dotall r ngroups
                 (match whole m with [] => true | _ => false end) (rest m)
      | None => []
      end
  end.

(** [re.findall(pattern, string, flags)], [flags] being [re.DOTALL] or 0. *)
Definition findall (pattern : str) (s : str) (dotall : bool) : result value :=
  match compile pattern with
  | Some (r, n) => Ok (VList (scan (2 * length s + 2) dotall r n false s))
  | None => Raise PatternRejected
  end.

End Re.


(** ** [str.format] with positional arguments *)

(** [format(v, '')] for the values a template slot may receive. *)
Definition format_value (v : value) : result str :=
  match v with
  | VStr s => Ok s
  | VNone => Ok (u8 "None")
  | VBool b => Ok (u8 (if b then "True" else "False"))
  | VInt z => Ok (u8 (pretty z))
  | _ => Raise (Unmodelled "repr of a container or of a match object")
  end.

(** [template.format( *args )].  [{}] takes the next argument, [{{] and [}}]
    are literal braces; surplus arguments are ignored.  Named and numbered
    fields, conversions and format specifications are outside the model. *)
Fixpoint format (template : str) (args : list value) : result str :=
  match template with
  | [] => Ok []
  | 123 :: 123 :: t => rbind (format t args) (fun s => Ok (123 :: s))
  | 123 :: 125 :: t =>
      match args with
      | a :: args' =>
          rbind (format_value a) (fun x =>
          rbind (format t args') (fun s => Ok (x ++ s)))
      | [] => Raise IndexError
      end
  | 123 :: [] => Raise (ValueError "Single '{' encountered in format string")
  | 123 :: _ => Raise (Unmodelled "replacement field with a name, conversion or spec")
  | 125 :: 125 :: t => rbind (format t args) (fun s => Ok (125 :: s))
  | 125 :: _ => Raise (ValueError "Single '}' encountered in format string")
  | c :: t => rbind (format t args) (fun s => Ok (c :: s))
  end.

(** [f(k1=v1, ..., **extra)]: a key given twice is a [TypeError]. *)
Definition keywords (explicit : list (str * value)) (extra : gmap str value)
    : result (gmap str value) :=
  if existsb (fun kv => bool_decide (is_Some (extra !! kv.1))) explicit
  then Raise (TypeError "got multiple values for keyword argument")
  else Ok (list_to_map explicit ∪ extra).

(** ** The world around the mapper *)

(** Objects are identified by their address; a sample is a [dict] object. *)
Definition loc := positive.

Record message := { role : str; content : str }.

(** [self.sampling_params]: a [vllm.SamplingParams] object on the vLLM path,
    the plain [dict] on the pipeline path. *)
Inductive sampling : Type :=
| SamplingObject (fields : gmap str value)
| SamplingDict (d : gmap str value).

(** A request sent to the model. *)
Inductive invocation : Type :=
| Chat (messages : list message) (sp : sampling)        (* model.chat(messages, sp) *)
| Pipe (messages : list message) (kw : gmap str value). (* model(messages, **kw) *)

(** vLLM's [RequestOutput] and [CompletionOutput]. *)
Record CompletionOutput := { text : str }.
Record RequestOutput := { outputs : list CompletionOutput }.

(** The live model returned by [get_model]. *)
Record model := {
  chat : list message -> sampling -> result (list RequestOutput);
  pipe : list message -> gmap str value -> result (list (gmap str value))
}.

(** Collaborators that are not part of this file: [torch], [vllm] and
    [data_juicer.utils.model_utils]. *)
Record env := {
  device_count : Z;                                      (* torch.cuda.device_count() *)
  prepare_model : gmap str value -> result N;            (* returns the model key *)
  SamplingParams : gmap str value -> result (gmap str value);
  get_model : N -> option Z -> bool -> result model
}.

Inductive log_entry : Type :=
| Debug (v : value)
| Info (tensor_parallel_size : Z).

Record world := {
  heap : gmap loc (gmap str value);   (* the dict objects *)
  log : list log_entry;               (* loguru, oldest first *)
  prepared : list (gmap str value);   (* calls of prepare_model, oldest first *)
  sent : list invocation              (* requests to the model, oldest first *)
}.

(** Computations: state passing over [world], with exceptions. *)
Definition M (A : Type) : Type := world -> result A * world.

Global Instance M_ret : MRet M := fun _ a w => (Ok a, w).
Global Instance M_bind : MBind M := fun _ _ f m w =>
  match m w with
  | (Ok a, w') => f a w'
  | (Raise e, w') => (Raise e, w')
  end.

Definition lift {A} (r : result A) : M A := fun w => (r, w).

Definition raise {A} (e : exn) : M A := lift (Raise e).

(** [assert cond, msg] *)
Definition assert (cond : bool) (msg : string) : M unit :=
  if cond then mret tt else raise (AssertionError msg).

Definition logger_debug (v : value) : M unit := fun w =>
  (Ok tt, {| heap := heap w; log := log w ++ [Debug v];
             prepared := prepared w; sent := sent w |}).

Definition logger_info (n : Z) : M unit := fun w =>
  (Ok tt, {| heap := heap w; log := log w ++ [Info n];
             prepared := prepared w; sent := sent w |}).

Definition call_prepare_model (E : env) (kw : gmap str value) : M N := fun w =>
  (prepare_model E kw,
   {| heap := heap w; log := log w;
      prepared := prepared w ++ [kw]; sent := sent w |}).

Definition send {A} (i : invocation) (answer : result A) : M A := fun w =>
  (answer,
   {| heap := heap w; log := log w;
      prepared := prepared w; sent := sent w ++ [i] |}).

(** [sample[key]] *)
Definition getitem (sample : loc) (key : str) : M value := fun w =>
  match heap w !! sample with
  | Some d =>
      match d !! key with
      | Some v => (Ok v, w)
      | None => (Raise (KeyError key), w)
      end
  | None => (Raise (TypeError "object is not subscriptable"), w)
  end.

(** [sample[key] = v]: the dict object at [sample] is updated in place. *)
Definition setitem (sample : loc) (key : str) (v : value) : M unit := fun w =>
  match heap w !! sample with
  | Some d =>
      (Ok tt, {| heap := <[sample := <[key := v]> d]> (heap w); log := log w;
                 prepared := prepared w; sent := sent w |})
  | None => (Raise (TypeError "object does not support item assignment"), w)
  end.

(** ** The mapper *)

(** Lines 25-33. *)
Definition DEFAULT_SYSTEM_PROMPT : str :=
  u8 "请优化输入的问答对，使【问题】和【回答】都更加详细、准确。"
  ++ u8 "必须按照以下标记格式，直接输出优化后的问答对：" ++ LF
  ++ u8 "【问题】" ++ LF
  ++ u8 "优化后的问题" ++ LF
  ++ u8 "【回答】" ++ LF
  ++ u8 "优化后的回答".
Definition DEFAULT_INPUT_TEMPLATE : str := u8 "以下是原始问答对：" ++ LF ++ u8 "{}".
Definition DEFAULT_QA_PAIR_TEMPLATE : str :=
  u8 "【问题】" ++ LF ++ u8 "{}" ++ LF ++ u8 "【回答】" ++ LF ++ u8 "{}".
Definition DEFAULT_OUTPUT_PATTERN : str :=
  u8 ".*?【问题】\s*(.*?)\s*【回答】\s*(.*)".

(** What [super().__init__( **kwargs )] leaves on the object: the attributes of
    the base class [Mapper] this file reads or overwrites.  The base class is
    not part of this file; its result is taken as given. *)
Record Mapper := {
  query_key : str;
  response_key : str;
  base_num_proc : option Z;
  use_cuda : bool               (* what self.use_cuda() answers *)
}.

Record OptimizeQAMapper := {
  base : Mapper;
  num_proc : option Z;
  system_prompt : str;
  input_template : str;
  qa_pair_template : str;
  output_pattern : str;
  enable_vllm : bool;
  model_key : N;
  sampling_params : sampling
}.

(** The arguments of the constructor, lines 37-47. *)
Record config := {
  hf_model : str;
  cfg_system_prompt : option str;
  cfg_input_template : option str;
  cfg_qa_pair_template : option str;
  cfg_output_pattern : option str;
  cfg_enable_vllm : bool;
  cfg_model_params : option (gmap str value);
  cfg_sampling_params : option (gmap str value)
}.

(** [override or default] for an [Optional[str]]: [None] and [''] are falsy. *)
Definition or_default (override : option str) (dflt : str) : str :=
  match override with
  | Some (c :: s) => c :: s
  | Some [] | None => dflt
  end.

(** [d.get(key) is None] *)
Definition get_is_None (d : gmap str value) (key : str) : bool :=
  match d !! key with
  | None | Some VNone => true
  | Some _ => false
  end.

(** Lines 68-100.  [super_init] is the object after line 68. *)
Definition __init__ (E : env) (super_init : Mapper) (cfg : config)
    : M OptimizeQAMapper :=
  let system_prompt := or_default (cfg_system_prompt cfg) DEFAULT_SYSTEM_PROMPT in
  let input_template := or_default (cfg_input_template cfg) DEFAULT_INPUT_TEMPLATE in
  let qa_pair_template :=
    or_default (cfg_qa_pair_template cfg) DEFAULT_QA_PAIR_TEMPLATE in
  let output_pattern := or_default (cfg_output_pattern cfg) DEFAULT_OUTPUT_PATTERN in
  let model_params := default ∅ (cfg_model_params cfg) in
  let sampling_params := default ∅ (cfg_sampling_params cfg) in
  if cfg_enable_vllm cfg then
    _ ← assert (1 <=? device_count E)%Z "must be executed in CUDA";
    model_params ←
      (if get_is_None model_params (u8 "tensor_parallel_size") then
         let tensor_parallel_size := device_count E in
         _ ← logger_info tensor_parallel_size;
         mret (<[u8 "tensor_parallel_size" := VInt tensor_parallel_size]> model_params)
       else mret model_params);
    kw ← lift (keywords [(u8 "model_type", VStr (u8 "vllm"));
                         (u8 "pretrained_model_name_or_path", VStr (hf_model cfg))]
                 model_params);
    key ← call_prepare_model E kw;
    sp ← lift (SamplingParams E sampling_params);
    mret {| base := super_init; num_proc := Some 1%Z;
            system_prompt := system_prompt; input_template := input_template;
            qa_pair_template := qa_pair_template; output_pattern := output_pattern;
            enable_vllm := true; model_key := key;
            sampling_params := SamplingObject sp |}
  else
    kw ← lift (keywords [(u8 "model_type", VStr (u8 "huggingface"));
                         (u8 "pretrained_model_name_or_path", VStr (hf_model cfg));
                         (u8 "return_pipe", VBool true)]
                 model_params);
    key ← call_prepare_model E kw;
    mret {| base := super_init; num_proc := base_num_proc super_init;
            system_prompt := system_prompt; input_template := input_template;
            qa_pair_template := qa_pair_template; output_pattern := output_pattern;
            enable_vllm := false; model_key := key;
            sampling_params := SamplingDict sampling_params |}.

(** Lines 102-106. *)
Definition build_input (self : OptimizeQAMapper) (sample : loc) : M str :=
  q ← getitem sample (query_key (base self));
  a ← getitem sample (response_key (base self));
  qa_pair ← lift (format (qa_pair_template self) [q; a]);
  input_prompt ← lift (format (input_template self) [VStr qa_pair]);
  mret input_prompt.

(** [re.findall] refuses a subject that is not a string. *)
Definition re_findall (pattern : str) (subject : value) (dotall : bool)
    : result value :=
  match subject with
  | VStr s => Re.findall pattern s dotall
  | _ => Raise (TypeError "expected string or bytes-like object")
  end.

(** Lines 108-115. *)
Definition parse_output (self : OptimizeQAMapper) (raw_output : value)
    : M (value * value) :=
  _ ← logger_debug raw_output;
  matches ← lift (re_findall (output_pattern self) raw_output true);
  if truthy matches then
    match_ ← lift (item0 matches);
    g1 ← lift (group match_ 1);
    q ← lift (py_strip g1);
    g2 ← lift (group match_ 2);
    a ← lift (py_strip g2);
    mret (q, a)
  else mret (VNone, VNone).

(** Lines 121-137: the conversation and the call of the model. *)
Definition ask (self : OptimizeQAMapper) (m : model) (input_prompt : str)
    : M value :=
  let messages := [ {| role := u8 "system"; content := system_prompt self |};
                    {| role := u8 "user"; content := input_prompt |} ] in
  if enable_vllm self then
    response ← send (Chat messages (sampling_params self))
                 (chat m messages (sampling_params self));
    match response with
    | r :: _ =>
        match outputs r with
        | o :: _ => mret (VStr (text o))
        | [] => raise IndexError
        end
    | [] => raise IndexError
    end
  else
    match sampling_params self with
    | SamplingDict d =>
        kw ← lift (keywords [(u8 "return_full_text", VBool false)] d);
        response ← send (Pipe messages kw) (pipe m messages kw);
        match response with
        | r :: _ =>
            match r !! u8 "generated_text" with
            | Some v => mret v
            | None => raise (KeyError (u8 "generated_text"))
            end
        | [] => raise IndexError
        end
    | SamplingObject _ => raise (TypeError "argument after ** must be a mapping")
    end.

(** Lines 139-145: each half is written back on its own. *)
Definition merge (self : OptimizeQAMapper) (sample : loc)
    (parsed_q parsed_a : value) : M loc :=
  _ ← (if truthy parsed_q then setitem sample (query_key (base self)) parsed_q
       else mret tt);
  _ ← (if truthy parsed_a then setitem sample (response_key (base self)) parsed_a
       else mret tt);
  mret sample.

(** Lines 117-145. *)
Definition process_single (E : env) (self : OptimizeQAMapper)
    (sample : loc) (rank : option Z) : M loc :=
  m ← lift (get_model E (model_key self) rank (use_cuda (base self)));
  input_prompt ← build_input self sample;
  output ← ask self m input_prompt;
  '(parsed_q, parsed_a) ← parse_output self output;
  merge self sample parsed_q parsed_a.

(** ** Observations on a world *)

(** The value of field [key] of the dict object at [l], if any. *)
Definition field (w : world) (l : loc) (key : str) : option value :=
  match heap w !! l with
  | Some d => d !! key
  | None => None
  end.

(** A world that differs from [w] at most in the log and in the requests
    sent: no object was touched and no model was prepared. *)
Definition quiet (w w' : world) : Prop :=
  heap w' = heap w /\ prepared w' = prepared w.

(** The conversation of lines 121-127. *)
Definition conversation (self : OptimizeQAMapper) (input_prompt : str)
    : list message :=
  [ {| role := u8 "system"; content := system_prompt self |};
    {| role := u8 "user"; content := input_prompt |} ].

(** The items of [findall] are strings or tuples of strings, never match
    objects. *)
Definition plain (v : value) : Prop :=
  match v with
  | VStr _ | VTuple _ => True
  | _ => False
  end.

(** The world after [parse_output]: the raw reply was logged. *)
Definition logged (raw : value) (w : world) : world :=
  {| heap := heap w; log := log w ++ [Debug raw];
     prepared := prepared w; sent := sent w |}.

(** ** Worked inputs *)


Definition garbage_reply : str := u8 "garbage, no markers at all".

(** ["【问题】\n\n【回答】\nNew A"]: the format, with an empty question. *)
Definition empty_question_reply : str :=
  u8 "【问题】" ++ LF ++ LF ++ u8 "【回答】" ++ LF ++ u8 "New A".

(** ["【问题】\nNew Q\n【回答】\n"]: the format, with an empty answer. *)
Definition empty_answer_reply : str :=
  u8 "【问题】" ++ LF ++ u8 "New Q" ++ LF ++ u8 "【回答】" ++ LF.

(** A model that always answers [reply]. *)
Definition demo_model (reply : str) : model :=
  {| chat := fun _ _ => Ok [ {| outputs := [ {| text := reply |} ] |} ];
     pipe := fun _ _ => Ok [ {[ u8 "generated_text" := VStr reply ]} ] |}.

Definition demo_env (gpus : Z) (reply : str) : env :=
  {| device_count := gpus;
     prepare_model := fun _ => Ok 7;
     SamplingParams := fun d => Ok d;
     get_model := fun _ _ _ => Ok (demo_model reply) |}.

Definition demo_base : Mapper :=
  {| query_key := u8 "query"; response_key := u8 "response";
     base_num_proc := Some 4%Z; use_cuda := false |}.

(** The constructor called with its defaults, but for [enable_vllm]. *)
Definition demo_cfg (vllm : bool) : config :=
  {| hf_model := u8 "Qwen/Qwen2.5-7B-Instruct";
     cfg_system_prompt := None; cfg_input_template := None;
     cfg_qa_pair_template := None; cfg_output_pattern := None;
     cfg_enable_vllm := vllm; cfg_model_params := None;
     cfg_sampling_params := None |}.

(** The mapper that [demo_cfg false] constructs. *)
Definition demo_self : OptimizeQAMapper :=
  {| base := demo_base; num_proc := Some 4%Z;
     system_prompt := DEFAULT_SYSTEM_PROMPT;
     input_template := DEFAULT_INPUT_TEMPLATE;
     qa_pair_template := DEFAULT_QA_PAIR_TEMPLATE;
     output_pattern := DEFAULT_OUTPUT_PATTERN;
     enable_vllm := false; model_key := 7;
     sampling_params := SamplingDict ∅ |}.

(** One sample, [{'query': 'Q1', 'response': 'A1', 'meta': 3}], at address 1. *)
Definition demo_world : world :=
  {| heap := {[ 1%positive := {[ u8 "query" := VStr (u8 "Q1");
                                 u8 "response" := VStr (u8 "A1");
                                 u8 "meta" := VInt 3 ]} ]};
     log := []; prepared := []; sent := [] |}.

(** [DEFAULT_OUTPUT_PATTERN], compiled: it has two groups. *)
Definition default_regex : Re.regex :=
  Eval vm_compute in
    match Re.compile DEFAULT_OUTPUT_PATTERN with
    | Some (r, _) => r
    | None => Re.Eps
    end.

(** The words a regex denotes, without regard to priorities and captures. *)
Fixpoint lang (dotall : bool) (r : Re.regex) (s : str) : Prop :=
  match r with
  | Re.Eps => s = []
  | Re.Chr cs => exists c, s = [c] /\ Re.cs_match dotall cs c = true
  | Re.Star _ cs => Forall (fun c => Re.cs_match dotall cs c = true) s
  | Re.Seq r1 r2 => exists s1 s2, s = s1 ++ s2 /\ lang dotall r1 s1 /\ lang dotall r2 s2
  | Re.Alt r1 r2 => lang dotall r1 s \/ lang dotall r2 s
  | Re.Group _ r1 => lang dotall r1 s
  end.

(** The world after request [i] has been sent. *)
Definition requested (i : invocation) (w : world) : world :=
  {| heap := heap w; log := log w; prepared := prepared w;
     sent := sent w ++ [i] |}.

(** A model whose calls raise [e], and one that answers with no result. *)
Definition broken_model (e : exn) : model :=
  {| chat := fun _ _ => Raise e; pipe := fun _ _ => Raise e |}.

Definition silent_model : model :=
  {| chat := fun _ _ => Ok []; pipe := fun _ _ => Ok [] |}.

(** An environment with one CUDA device whose [get_model] answers [m]. *)
Definition env_of (m : result model) : env :=
  {| device_count := 1;
     prepare_model := fun _ => Ok 7;
     SamplingParams := fun d => Ok d;
     get_model := fun _ _ _ => m |}.

(** The mapper that [demo_cfg true] constructs. *)
Definition demo_vllm_self : OptimizeQAMapper :=
  {| base := demo_base; num_proc := Some 1%Z;
     system_prompt := DEFAULT_SYSTEM_PROMPT;
     input_template := DEFAULT_INPUT_TEMPLATE;
     qa_pair_template := DEFAULT_QA_PAIR_TEMPLATE;
     output_pattern := DEFAULT_OUTPUT_PATTERN;
     enable_vllm := true; model_key := 7;
     sampling_params := SamplingObject ∅ |}.

(** ["以下是原始问答对：\n【问题】\nQ1\n【回答】\nA1"] *)
Definition demo_prompt : str :=
  u8 "以下是原始问答对：" ++ LF ++ u8 "【问题】" ++ LF ++ u8 "Q1" ++ LF
  ++ u8 "【回答】" ++ LF ++ u8 "A1".

(** [demo_self] with [sampling_params={'return_full_text': True}]. *)
Definition clash_self : OptimizeQAMapper :=
  {| base := demo_base; num_proc := Some 4%Z;
     system_prompt := DEFAULT_SYSTEM_PROMPT;
     input_template := DEFAULT_INPUT_TEMPLATE;
     qa_pair_template := DEFAULT_QA_PAIR_TEMPLATE;
     output_pattern := DEFAULT_OUTPUT_PATTERN;
     enable_vllm := false; model_key := 7;
     sampling_params := SamplingDict {[ u8 "return_full_text" := VBool true ]} |}.

(** One sample, [{'query': 'a{b}', 'response': '}c'}], at address 1. *)
Definition brace_world : world :=
  {| heap := {[ 1%positive := {[ u8 "query" := VStr (u8 "a{b}");
                                 u8 "response" := VStr (u8 "}c") ]} ]};
     log := []; prepared := []; sent := [] |}.

(** [demo_self] with the QA-pair template ["Q: {} A: {} {}"]. *)
Definition three_slot_self : OptimizeQAMapper :=
  {| base := demo_base; num_proc := Some 4%Z;
     system_prompt := DEFAULT_SYSTEM_PROMPT;
     input_template := DEFAULT_INPUT_TEMPLATE;
     qa_pair_template :=
       u8 "Q: " ++ u8 "{}" ++ u8 " A: " ++ u8 "{}" ++ u8 " " ++ u8 "{}" ++ [];
     output_pattern := DEFAULT_OUTPUT_PATTERN;
     enable_vllm := false; model_key := 7;
     sampling_params := SamplingDict ∅ |}.

(** The world after [prepare_model] has been called with keywords [kw]. *)
Definition after_prepare (kw : gmap str value) (w : world) : world :=
  {| heap := heap w; log := log w; prepared := prepared w ++ [kw];
     sent := sent w |}.

(** The keywords of the two calls of [prepare_model], lines 89-92 and
    95-99. *)
Definition vllm_keywords (hf : str) : list (str * value) :=
  [(u8 "model_type", VStr (u8 "vllm"));
   (u8 "pretrained_model_name_or_path", VStr hf)].

Definition pipeline_keywords (hf : str) : list (str * value) :=
  [(u8 "model_type", VStr (u8 "huggingface"));
   (u8 "pretrained_model_name_or_path", VStr hf);
   (u8 "return_pipe", VBool true)].

(** The pipeline constructor called with [model_params={'model_type': 'x'}]. *)
Definition clash_cfg : config :=
  {| hf_model := u8 "Qwen/Qwen2.5-7B-Instruct";
     cfg_system_prompt := None; cfg_input_template := None;
     cfg_qa_pair_template := None; cfg_output_pattern := None;
     cfg_enable_vllm := false;
     cfg_model_params := Some {[ u8 "model_type" := VStr (u8 "x") ]};
     cfg_sampling_params := None |}.

(** ** Running computations *)

Lemma bind_run {A B} (m : M A) (f : A -> M B) (w : world) :
  (m ≫= f) w =
    match m w with
    | (Ok a, w') => f a w'
    | (Raise e, w') => (Raise e, w')
    end.
Proof. reflexivity. Qed.

Lemma quiet_refl w : quiet w w.
Proof. by split. Qed.

Lemma quiet_trans w1 w2 w3 : quiet w1 w2 -> quiet w2 w3 -> quiet w1 w3.
Proof. intros [H1 H2] [H3 H4]. split; congruence. Qed.

Lemma getitem_inv sample key w r w' :
  getitem sample key w = (r, w') ->
  w' = w /\ forall v, r = Ok v -> field w sample key = Some v.
Proof.
  unfold getitem, field. intros H.
  destruct (heap w !! sample) as [d|]; [destruct (d !! key) eqn:Hk|];
    simplify_eq; split; congruence.
Qed.

Lemma build_input_inv self sample w r w' :
  build_input self sample w = (r, w') -> w' = w.
Proof.
  unfold build_input. rewrite bind_run.
  destruct (getitem sample (query_key (base self)) w) as [[q|e] w1] eqn:Hq;
    apply getitem_inv in Hq as [-> _]; [|by intros [= _ <-]].
  rewrite bind_run.
  destruct (getitem sample (response_key (base self)) w) as [[a|e] w1] eqn:Ha;
    apply getitem_inv in Ha as [-> _]; [|by intros [= _ <-]].
  rewrite bind_run. unfold lift at 1.
  destruct (format (qa_pair_template self) [q; a]); [|by intros [= _ <-]].
  rewrite bind_run. unfold lift at 1.
  destruct (format (input_template self) _); by intros [= _ <-].
Qed.

Lemma send_run {A} (i : invocation) (answer : result A) w :
  send i answer w =
    (answer, {| heap := heap w; log := log w; prepared := prepared w;
                sent := sent w ++ [i] |}).
Proof. reflexivity. Qed.

(** [ask] sends at most one request, and touches nothing else. *)
Lemma ask_inv self m input_prompt w r w' :
  ask self m input_prompt w = (r, w') ->
  quiet w w' /\ log w' = log w /\
  (sent w' = sent w \/
   exists i, sent w' = sent w ++ [i] /\
     if enable_vllm self
     then i = Chat (conversation self input_prompt) (sampling_params self)
     else exists d kw, sampling_params self = SamplingDict d /\
            keywords [(u8 "return_full_text", VBool false)] d = Ok kw /\
            i = Pipe (conversation self input_prompt) kw).
Proof.
  unfold ask. fold (conversation self input_prompt).
  destruct (enable_vllm self).
  - rewrite bind_run, send_run.
    destruct (chat m _ _) as [[|ro ?]|e]; [| |];
      try destruct (outputs ro); intros [= _ <-]; simpl;
      (split; [by split|split; [done|right; eauto]]).
  - destruct (sampling_params self) as [o|d]; [by intros [= _ <-]; auto using quiet_refl|].
    rewrite bind_run. unfold lift at 1.
    destruct (keywords _ d) as [kw|e] eqn:Hkw; [|by intros [= _ <-]; auto using quiet_refl].
    rewrite bind_run, send_run.
    destruct (pipe m _ kw) as [[|g ?]|e]; [| |];
      try destruct (g !! u8 "generated_text"); intros [= _ <-]; simpl;
      (split; [by split|split; [done|right; eauto 10]]).
Qed.

(** ** What [re.findall] returns *)

Lemma item_plain n m : plain (Re.item n m).
Proof. unfold Re.item. by destruct n as [|[|n]]. Qed.

Lemma scan_plain fuel dotall r n adv s : Forall plain (Re.scan fuel dotall r n adv s).
Proof.
  revert adv s. induction fuel as [|f IH]; intros adv s; simpl; [constructor|].
  destruct (Re.search dotall r adv s); constructor; auto using item_plain.
Qed.

Lemma findall_plain pattern subject dotall v :
  re_findall pattern subject dotall = Ok v ->
  exists items, v = VList items /\ Forall plain items.
Proof.
  unfold re_findall, Re.findall. destruct subject; try done.
  destruct (Re.compile pattern) as [[r n]|]; [|done].
  intros [= <-]. eauto using scan_plain.
Qed.

(** The first item is the leftmost match; there is none exactly when the
    search fails. *)
Lemma findall_search pattern r n s dotall :
  Re.compile pattern = Some (r, n) ->
  exists items,
    Re.findall pattern s dotall = Ok (VList items) /\
    head items = Re.item n <$> Re.search dotall r false s.
Proof.
  intros Hc. unfold Re.findall. rewrite Hc.
  replace (2 * length s + 2)%nat with (S (2 * length s + 1)) by lia. simpl.
  destruct (Re.search dotall r false s); eauto.
Qed.

Lemma plain_group v n :
  plain v -> group v n = Raise (AttributeError (type_name v) "group").
Proof. by destruct v. Qed.

(** ** [parse_output] *)

Lemma logger_debug_run v w :
  logger_debug v w =
    (Ok tt, {| heap := heap w; log := log w ++ [Debug v];
               prepared := prepared w; sent := sent w |}).
Proof. reflexivity. Qed.

Lemma parse_output_world self raw w r w' :
  parse_output self raw w = (r, w') -> w' = logged raw w.
Proof.
  unfold parse_output. rewrite bind_run, logger_debug_run. fold (logged raw w).
  rewrite bind_run. unfold lift at 1.
  destruct (re_findall _ _ _) as [ms|]; [|by intros [= _ <-]].
  destruct (truthy ms); [|by intros [= _ <-]].
  rewrite bind_run. unfold lift at 1.
  destruct (item0 ms) as [x|]; [|by intros [= _ <-]].
  rewrite bind_run. unfold lift at 1.
  destruct (group x 1) as [g1|]; [|by intros [= _ <-]].
  rewrite bind_run. unfold lift at 1.
  destruct (py_strip g1) as [q|]; [|by intros [= _ <-]].
  rewrite bind_run. unfold lift at 1.
  destruct (group x 2) as [g2|]; [|by intros [= _ <-]].
  rewrite bind_run. unfold lift at 1.
  destruct (py_strip g2) as [a|]; by intros [= _ <-].
Qed.

(** No match: [(None, None)]. *)
Lemma parse_output_nil self raw w :
  re_findall (output_pattern self) raw true = Ok (VList []) ->
  parse_output self raw w = (Ok (VNone, VNone), logged raw w).
Proof.
  intros H. unfold parse_output.
  rewrite bind_run, logger_debug_run. fold (logged raw w).
  rewrite bind_run. unfold lift at 1. by rewrite H.
Qed.

(** A match: line 113 asks a tuple (or a string) for [group]. *)
Lemma parse_output_cons self raw w x xs :
  re_findall (output_pattern self) raw true = Ok (VList (x :: xs)) ->
  parse_output self raw w
  = (Raise (AttributeError (type_name x) "group"), logged raw w).
Proof.
  intros H. unfold parse_output.
  rewrite bind_run, logger_debug_run. fold (logged raw w).
  rewrite bind_run. unfold lift at 1. rewrite H.
  change (truthy (VList (x :: xs))) with true. cbv iota.
  rewrite bind_run. unfold lift at 1.
  change (item0 (VList (x :: xs))) with (Ok x). cbv iota.
  rewrite bind_run. unfold lift at 1.
  apply findall_plain in H as (items & [= <-] & Hp).
  apply Forall_cons in Hp as [Hx _].
  by rewrite (plain_group x 1 Hx).
Qed.

(** Whatever [parse_output] returns, each half is [None] or a stripped
    string. *)
Lemma parse_output_halves self raw w q a w' :
  parse_output self raw w = (Ok (q, a), w') ->
  (q = VNone \/ exists s, q = VStr (strip s)) /\
  (a = VNone \/ exists s, a = VStr (strip s)).
Proof.
  unfold parse_output. rewrite bind_run, logger_debug_run.
  rewrite bind_run. unfold lift at 1.
  destruct (re_findall _ _ _) as [ms|]; [|done].
  destruct (truthy ms); [|intros [= <- <- _]; auto].
  rewrite bind_run. unfold lift at 1.
  destruct (item0 ms) as [x|]; [|done].
  rewrite bind_run. unfold lift at 1.
  destruct (group x 1) as [g1|]; [|done].
  rewrite bind_run. unfold lift at 1.
  destruct (py_strip g1) as [q'|] eqn:Hq; [|done].
  rewrite bind_run. unfold lift at 1.
  destruct (group x 2) as [g2|]; [|done].
  rewrite bind_run. unfold lift at 1.
  destruct (py_strip g2) as [a'|] eqn:Ha; [|done].
  intros [= <- <- _].
  destruct g1; simplify_eq/=; destruct g2; simplify_eq/=.
  split; right; eexists; reflexivity.
Qed.

(** ** Writing back *)

Lemma field_insert w w' sample d key v l k :
  heap w !! sample = Some d ->
  heap w' = <[sample := <[key := v]> d]> (heap w) ->
  field w' l k = if decide (l = sample /\ k = key) then Some v else field w l k.
Proof.
  intros Hd Hw. unfold field. rewrite Hw.
  destruct (decide (l = sample)) as [->|Hl].
  - rewrite lookup_insert_eq, Hd.
    destruct (decide (k = key)) as [->|Hk].
    + rewrite lookup_insert_eq. by rewrite decide_True.
    + rewrite lookup_insert_ne by done. rewrite decide_False; [done|naive_solver].
  - rewrite lookup_insert_ne by done. by rewrite decide_False by naive_solver.
Qed.

(** An assignment changes one field of one object, allocates nothing and
    leaves the rest of the world alone. *)
Lemma setitem_inv sample key v w r w' :
  setitem sample key v w = (r, w') ->
  dom (heap w') = dom (heap w) /\ log w' = log w /\
  prepared w' = prepared w /\ sent w' = sent w /\
  forall l k, field w' l k = field w l k \/
              (l = sample /\ k = key /\ field w' l k = Some v).
Proof.
  unfold setitem. destruct (heap w !! sample) as [d|] eqn:Hd; intros [= _ <-].
  - simpl. repeat split; try done.
    + rewrite dom_insert_L. apply elem_of_dom_2 in Hd. set_solver.
    + intros l k. erewrite (field_insert w _ sample d key v l k Hd) by reflexivity.
      case_decide; naive_solver.
  - repeat split; auto.
Qed.

Lemma guarded_setitem_inv (c : bool) sample key v w r w' :
  (if c then setitem sample key v else mret tt) w = (r, w') ->
  dom (heap w') = dom (heap w) /\ log w' = log w /\
  prepared w' = prepared w /\ sent w' = sent w /\
  forall l k, field w' l k = field w l k \/
              (l = sample /\ k = key /\ c = true /\ field w' l k = Some v).
Proof.
  destruct c.
  - intros H. apply setitem_inv in H as (D & L & P & S & F).
    repeat split; try done. intros l k. destruct (F l k); naive_solver.
  - intros [= _ <-]. repeat split; auto.
Qed.

Lemma merge_inv self sample q a w r w' :
  merge self sample q a w = (r, w') ->
  (forall x, r = Ok x -> x = sample) /\
  dom (heap w') = dom (heap w) /\ log w' = log w /\
  prepared w' = prepared w /\ sent w' = sent w /\
  forall l k,
    field w' l k = field w l k \/
    (l = sample /\
     ((k = query_key (base self) /\ truthy q = true /\ field w' l k = Some q) \/
      (k = response_key (base self) /\ truthy a = true /\ field w' l k = Some a))).
Proof.
  unfold merge. rewrite bind_run.
  destruct ((if truthy q then setitem sample (query_key (base self)) q else mret tt) w)
    as [[[]|e] w1] eqn:H1;
    apply guarded_setitem_inv in H1 as (D1 & L1 & P1 & S1 & F1).
  - rewrite bind_run.
    destruct ((if truthy a then setitem sample (response_key (base self)) a else mret tt) w1)
      as [[[]|e] w2] eqn:H2;
      apply guarded_setitem_inv in H2 as (D2 & L2 & P2 & S2 & F2);
      intros [= <- <-]; (repeat split; [naive_solver|congruence..|]);
      intros l k; destruct (F2 l k) as [->|?]; destruct (F1 l k); naive_solver.
  - intros [= <- <-]. repeat split; [naive_solver|congruence..|].
    intros l k. destruct (F1 l k); naive_solver.
Qed.

(** The run of [process_single]: it stops before anything is written, or it
    reaches the merge of lines 139-145 with a parsed pair. *)
Lemma process_single_inv E self sample rank w r w' :
  process_single E self sample rank w = (r, w') ->
  (heap w' = heap w /\ exists e, r = Raise e) \/
  exists m input_prompt raw q a w1,
    get_model E (model_key self) rank (use_cuda (base self)) = Ok m /\
    build_input self sample w = (Ok input_prompt, w) /\
    ask self m input_prompt w = (Ok raw, w1) /\
    parse_output self raw w1 = (Ok (q, a), logged raw w1) /\
    heap w1 = heap w /\
    merge self sample q a (logged raw w1) = (r, w').
Proof.
  unfold process_single. rewrite bind_run. unfold lift at 1.
  destruct (get_model E _ _ _) as [m|e]; [|intros [= <- <-]; eauto].
  rewrite bind_run.
  destruct (build_input self sample w) as [[ip|e] w0] eqn:Hb;
    pose proof (build_input_inv _ _ _ _ _ Hb) as ->;
    [|intros [= <- <-]; eauto].
  rewrite bind_run.
  destruct (ask self m ip w) as [[raw|e] w1] eqn:Ha;
    pose proof (ask_inv _ _ _ _ _ _ Ha) as ([Hh _] & _);
    [|intros [= <- <-]; eauto].
  rewrite bind_run.
  destruct (parse_output self raw w1) as [[[q a]|e] w2] eqn:Hp;
    pose proof (parse_output_world _ _ _ _ _ Hp) as ->;
    [|intros [= <- <-]; eauto].
  intros Hm. right. exists m, ip, raw, q, a, w1. auto 10.
Qed.

(** ** The parser (lines 108-115) *)

Lemma findall_no_match pattern r n raw :
  Re.compile pattern = Some (r, n) ->
  Re.search true r false raw = None ->
  re_findall pattern (VStr raw) true = Ok (VList []).
Proof.
  intros Hc Hs. destruct (findall_search pattern r n raw true Hc) as (items & Hf & Hh).
  rewrite Hs in Hh. destruct items; [exact Hf|discriminate].
Qed.





(** C2.  When the configured pattern finds no match in the raw reply,
    [parse_output] returns [(None, None)]; nothing is raised. *)
Theorem parse_output_no_match self r n raw w :
  Re.compile (output_pattern self) = Some (r, n) ->
  Re.search true r false raw = None ->
  parse_output self (VStr raw) w = (Ok (VNone, VNone), logged (VStr raw) w).
Proof.
  intros Hc Hs. apply parse_output_nil. eauto using findall_no_match.
Qed.

Lemma parse_output_garbage :
  parse_output demo_self (VStr garbage_reply) demo_world
  = (Ok (VNone, VNone), logged (VStr garbage_reply) demo_world).
Proof.
  apply (parse_output_no_match demo_self default_regex 2 garbage_reply demo_world);
    vm_compute; reflexivity.
Defined.

(** ** The input builder (lines 102-106) *)

Lemma getitem_field sample key w v :
  field w sample key = Some v -> getitem sample key w = (Ok v, w).
Proof.
  unfold field, getitem. destruct (heap w !! sample) as [d|]; [|done].
  by intros ->.
Qed.

(** C5.  With the default input template and the default QA-pair template,
    for a sample whose question is ["Q1"] and whose answer is ["A1"],
    [build_input] returns
    ["以下是原始问答对：\n【问题】\nQ1\n【回答】\nA1"]. *)
Theorem build_input_default self sample w :
  input_template self = DEFAULT_INPUT_TEMPLATE ->
  qa_pair_template self = DEFAULT_QA_PAIR_TEMPLATE ->
  field w sample (query_key (base self)) = Some (VStr (u8 "Q1")) ->
  field w sample (response_key (base self)) = Some (VStr (u8 "A1")) ->
  build_input self sample w
  = (Ok (u8 "以下是原始问答对：" ++ LF ++ u8 "【问题】" ++ LF ++ u8 "Q1" ++ LF
         ++ u8 "【回答】" ++ LF ++ u8 "A1"), w).
Proof.
  intros Hi Hq Fq Fa. unfold build_input.
  rewrite bind_run, (getitem_field _ _ _ _ Fq).
  rewrite bind_run, (getitem_field _ _ _ _ Fa).
  rewrite Hi, Hq. reflexivity.
Qed.

Lemma build_input_demo :
  build_input demo_self 1%positive demo_world
  = (Ok (u8 "以下是原始问答对：" ++ LF ++ u8 "【问题】" ++ LF ++ u8 "Q1" ++ LF
         ++ u8 "【回答】" ++ LF ++ u8 "A1"), demo_world).
Proof.
  apply (build_input_default demo_self 1%positive demo_world);
    vm_compute; reflexivity.
Defined.

(** ** The constructor (lines 68-100) *)

(** C6.  With [enable_vllm] set and no CUDA device, the constructor raises the
    assertion of line 81 and leaves the world as it was: [prepare_model] has
    not been called, and no mapper, of either backend, is returned. *)
Theorem init_vllm_without_cuda E super_init cfg w :
  cfg_enable_vllm cfg = true ->
  (device_count E < 1)%Z ->
  __init__ E super_init cfg w
  = (Raise (AssertionError "must be executed in CUDA"), w).
Proof.
  intros Hv Hd. unfold __init__. rewrite Hv, bind_run.
  replace (1 <=? device_count E)%Z with false by (symmetry; apply Z.leb_gt; lia).
  reflexivity.
Qed.

Lemma init_vllm_without_cuda_demo :
  __init__ (demo_env 0 []) demo_base (demo_cfg true) demo_world
  = (Raise (AssertionError "must be executed in CUDA"), demo_world).
Proof.
  apply (init_vllm_without_cuda (demo_env 0 []) demo_base (demo_cfg true) demo_world).
  - reflexivity.
  - simpl. lia.
Defined.

(** What a successful construction leaves in the mapper. *)
Lemma init_inv E super_init cfg w self w' :
  __init__ E super_init cfg w = (Ok self, w') ->
  base self = super_init /\
  enable_vllm self = cfg_enable_vllm cfg /\
  num_proc self
  = (if cfg_enable_vllm cfg then Some 1%Z else base_num_proc super_init) /\
  system_prompt self = or_default (cfg_system_prompt cfg) DEFAULT_SYSTEM_PROMPT /\
  input_template self = or_default (cfg_input_template cfg) DEFAULT_INPUT_TEMPLATE /\
  qa_pair_template self
  = or_default (cfg_qa_pair_template cfg) DEFAULT_QA_PAIR_TEMPLATE /\
  output_pattern self = or_default (cfg_output_pattern cfg) DEFAULT_OUTPUT_PATTERN.
Proof.
  unfold __init__. destruct (cfg_enable_vllm cfg).
  - rewrite bind_run. destruct (assert _ _ w) as [[[]|e] w0]; [|done].
    rewrite bind_run.
    match goal with |- context [match ?m w0 with _ => _ end] =>
      destruct (m w0) as [[mp|e] w1] end; [|done].
    rewrite bind_run. unfold lift at 1.
    destruct (keywords _ mp) as [kw|e]; [|done].
    rewrite bind_run. unfold call_prepare_model at 1.
    destruct (prepare_model E kw) as [key|e]; [|done].
    rewrite bind_run. unfold lift at 1.
    destruct (SamplingParams E _) as [sp|e]; [|done].
    intros [= <- _]. by repeat split.
  - rewrite bind_run. unfold lift at 1.
    destruct (keywords _ _) as [kw|e]; [|done].
    rewrite bind_run. unfold call_prepare_model at 1.
    destruct (prepare_model E kw) as [key|e]; [|done].
    intros [= <- _]. by repeat split.
Qed.

(** C7.  A mapper constructed with the vLLM backend has [num_proc = 1]; one
    constructed with the pipeline backend keeps the [num_proc] the base class
    gave it. *)
Theorem init_num_proc E super_init cfg w self w' :
  __init__ E super_init cfg w = (Ok self, w') ->
  enable_vllm self = cfg_enable_vllm cfg /\
  (enable_vllm self = true -> num_proc self = Some 1%Z) /\
  (enable_vllm self = false -> num_proc self = base_num_proc super_init).
Proof.
  intros H. apply init_inv in H as (_ & Hv & Hn & _).
  rewrite Hv, Hn. destruct (cfg_enable_vllm cfg); by repeat split.
Qed.

Lemma init_num_proc_demo :
  match (__init__ (demo_env 2 []) demo_base (demo_cfg true) demo_world).1,
        (__init__ (demo_env 0 []) demo_base (demo_cfg false) demo_world).1 with
  | Ok s1, Ok s2 => num_proc s1 = Some 1%Z /\ num_proc s2 = Some 4%Z
  | _, _ => False
  end.
Proof.
  destruct (__init__ (demo_env 2 []) demo_base (demo_cfg true) demo_world)
    as [[s1|e1] w1] eqn:H1; [|vm_compute in H1; discriminate].
  destruct (__init__ (demo_env 0 []) demo_base (demo_cfg false) demo_world)
    as [[s2|e2] w2] eqn:H2; [|vm_compute in H2; discriminate].
  destruct (init_num_proc _ _ _ _ _ _ H1) as (Hv1 & Ht1 & _).
  destruct (init_num_proc _ _ _ _ _ _ H2) as (Hv2 & _ & Hf2).
  split; [apply Ht1, Hv1|rewrite (Hf2 Hv2); reflexivity].
Defined.

Lemma or_default_nonempty override dflt :
  dflt <> [] -> or_default override dflt <> [].
Proof. by destruct override as [[|c s]|]. Qed.

(** C10.  For each of the four overrides the empty string and [None] give the
    same construction, and a constructed mapper never has an empty system
    prompt, input template, QA-pair template or output pattern. *)
Theorem init_empty_override E super_init w :
  (forall hf sp it qt op ev mp smp,
     let cfg o1 o2 o3 o4 :=
       {| hf_model := hf; cfg_system_prompt := o1; cfg_input_template := o2;
          cfg_qa_pair_template := o3; cfg_output_pattern := o4;
          cfg_enable_vllm := ev; cfg_model_params := mp;
          cfg_sampling_params := smp |} in
     __init__ E super_init (cfg (Some []) it qt op) w
     = __init__ E super_init (cfg None it qt op) w /\
     __init__ E super_init (cfg sp (Some []) qt op) w
     = __init__ E super_init (cfg sp None qt op) w /\
     __init__ E super_init (cfg sp it (Some []) op) w
     = __init__ E super_init (cfg sp it None op) w /\
     __init__ E super_init (cfg sp it qt (Some [])) w
     = __init__ E super_init (cfg sp it qt None) w) /\
  (forall cfg self w',
     __init__ E super_init cfg w = (Ok self, w') ->
     system_prompt self <> [] /\ input_template self <> [] /\
     qa_pair_template self <> [] /\ output_pattern self <> []).
Proof.
  split.
  - intros. subst cfg. unfold __init__.
    cbn [or_default cfg_system_prompt cfg_input_template cfg_qa_pair_template
           cfg_output_pattern cfg_enable_vllm cfg_model_params
           cfg_sampling_params hf_model].
    repeat split; reflexivity.
  - intros cfg self w' H.
    apply init_inv in H as (_ & _ & _ & -> & -> & -> & ->).
    repeat split; by apply or_default_nonempty.
Qed.

Lemma init_empty_override_demo :
  match (__init__ (demo_env 0 []) demo_base
           {| hf_model := u8 "Qwen/Qwen2.5-7B-Instruct";
              cfg_system_prompt := Some []; cfg_input_template := Some [];
              cfg_qa_pair_template := Some []; cfg_output_pattern := Some [];
              cfg_enable_vllm := false; cfg_model_params := None;
              cfg_sampling_params := None |} demo_world).1 with
  | Ok self =>
      system_prompt self <> [] /\ input_template self <> [] /\
      qa_pair_template self <> [] /\ output_pattern self <> []
  | Raise _ => False
  end.
Proof.
  match goal with |- match ?c.1 with _ => _ end =>
    destruct c as [[self|e] w'] eqn:H; [|vm_compute in H; discriminate] end.
  exact (proj2 (init_empty_override (demo_env 0 []) demo_base demo_world) _ _ _ H).
Defined.

(** ** Processing one sample (lines 117-145) *)

Lemma field_heap w1 w2 l k : heap w1 = heap w2 -> field w1 l k = field w2 l k.
Proof. unfold field. by intros ->. Qed.

(** When the pattern finds a match, line 113 raises before anything is
    written: the sample keeps all its fields. *)
Lemma process_single_match E self sample rank w m input_prompt raw w1 x xs :
  get_model E (model_key self) rank (use_cuda (base self)) = Ok m ->
  build_input self sample w = (Ok input_prompt, w) ->
  ask self m input_prompt w = (Ok raw, w1) ->
  re_findall (output_pattern self) raw true = Ok (VList (x :: xs)) ->
  process_single E self sample rank w
  = (Raise (AttributeError (type_name x) "group"), logged raw w1).
Proof.
  intros Hg Hb Ha Hf. unfold process_single.
  rewrite bind_run. unfold lift at 1. rewrite Hg.
  rewrite bind_run, Hb, bind_run, Ha, bind_run.
  by rewrite (parse_output_cons self raw w1 x xs Hf).
Qed.

(** C3.  After [process_single], the question field and the answer field of
    the sample each hold their original value or a non-empty string that
    [parse_output] returned for the reply of the model; and when the pattern
    finds no match in that reply, the sample is returned with all its fields
    as they were. *)
Theorem process_single_best_effort E self sample rank w :
  let out := process_single E self sample rank w in
  (forall key,
     key = query_key (base self) \/ key = response_key (base self) ->
     field out.2 sample key = field w sample key \/
     exists s raw w1 q a,
       s <> [] /\ field out.2 sample key = Some (VStr s) /\
       parse_output self raw w1 = (Ok (q, a), logged raw w1) /\
       (q = VStr s \/ a = VStr s)) /\
  (forall m input_prompt raw w1 r n,
     get_model E (model_key self) rank (use_cuda (base self)) = Ok m ->
     build_input self sample w = (Ok input_prompt, w) ->
     ask self m input_prompt w = (Ok (VStr raw), w1) ->
     Re.compile (output_pattern self) = Some (r, n) ->
     Re.search true r false raw = None ->
     out.1 = Ok sample /\ forall key, field out.2 sample key = field w sample key).
Proof.
  intros out. split.
  - intros key _.
    destruct out as [r w'] eqn:Hout. subst out.
    apply process_single_inv in Hout
      as [[Hh _]|(m & ip & raw & q & a & w1 & _ & _ & _ & Hp & Hh & Hm)].
    { left. by apply field_heap. }
    apply merge_inv in Hm as (_ & _ & _ & _ & _ & F).
    assert (Hw : field (logged raw w1) sample key = field w sample key)
      by by apply field_heap.
    destruct (parse_output_halves _ _ _ _ _ _ Hp) as [Hq Ha].
    simpl. destruct (F sample key) as [->|(_ & [(_ & Ht & Hv)|(_ & Ht & Hv)])];
      [by left|right..].
    + destruct Hq as [->|[s ->]]; [done|].
      exists (strip s), raw, w1, (VStr (strip s)), a.
      repeat split; eauto. by destruct (strip s).
    + destruct Ha as [->|[s ->]]; [done|].
      exists (strip s), raw, w1, q, (VStr (strip s)).
      repeat split; eauto. by destruct (strip s).
  - intros m ip raw w1 r n Hg Hb Ha Hc Hs.
    assert (Hrun : out = (Ok sample, logged (VStr raw) w1)).
    { subst out. unfold process_single.
      rewrite bind_run. unfold lift at 1. rewrite Hg.
      rewrite bind_run, Hb, bind_run, Ha, bind_run.
      by rewrite (parse_output_nil self (VStr raw) w1
                    (findall_no_match _ r n raw Hc Hs)). }
    rewrite Hrun. apply ask_inv in Ha as ([Hh _] & _).
    split; [reflexivity|]. intros key. by apply field_heap.
Qed.

Lemma process_single_garbage :
  let out := process_single (demo_env 0 garbage_reply) demo_self 1%positive None
               demo_world in
  out.1 = Ok 1%positive /\
  forall key, field out.2 1%positive key = field demo_world 1%positive key.
Proof.
  apply (proj2 (process_single_best_effort (demo_env 0 garbage_reply) demo_self
                  1%positive None demo_world)
           (demo_model garbage_reply)
           (u8 "以下是原始问答对：" ++ LF ++ u8 "【问题】" ++ LF ++ u8 "Q1" ++ LF
            ++ u8 "【回答】" ++ LF ++ u8 "A1")
           garbage_reply
           (ask demo_self (demo_model garbage_reply)
              (u8 "以下是原始问答对：" ++ LF ++ u8 "【问题】" ++ LF ++ u8 "Q1" ++ LF
               ++ u8 "【回答】" ++ LF ++ u8 "A1") demo_world).2
           default_regex 2%nat); vm_compute; reflexivity.
Defined.

(** C4, on the code.  The reply ["【问题】\n\n【回答】\nNew A"] matches the
    default pattern with an empty question and the answer ["New A"]; the
    reply ["【问题】\nNew Q\n【回答】\n"] matches it with the question
    ["New Q"] and an empty answer.  On either, [process_single] raises
    [AttributeError] at line 113 and both fields keep their original
    values: the filled half is not written. *)
Theorem process_single_half_empty :
  let run reply :=
    process_single (demo_env 0 reply) demo_self 1%positive None demo_world in
  (re_findall DEFAULT_OUTPUT_PATTERN (VStr empty_question_reply) true
   = Ok (VList [VTuple [VStr []; VStr (u8 "New A")]]) /\
   (run empty_question_reply).1 = Raise (AttributeError "tuple" "group") /\
   field (run empty_question_reply).2 1%positive (u8 "query") = Some (VStr (u8 "Q1")) /\
   field (run empty_question_reply).2 1%positive (u8 "response") = Some (VStr (u8 "A1"))) /\
  (re_findall DEFAULT_OUTPUT_PATTERN (VStr empty_answer_reply) true
   = Ok (VList [VTuple [VStr (u8 "New Q"); VStr []]]) /\
   (run empty_answer_reply).1 = Raise (AttributeError "tuple" "group") /\
   field (run empty_answer_reply).2 1%positive (u8 "query") = Some (VStr (u8 "Q1")) /\
   field (run empty_answer_reply).2 1%positive (u8 "response") = Some (VStr (u8 "A1"))).
Proof. repeat split; vm_compute; reflexivity. Qed.

(** C8.  [process_single] returns the reference it was given, allocates no
    object, and leaves every field of every object as it was, but for the
    question field and the answer field of the sample. *)
Theorem process_single_in_place E self sample rank w :
  let out := process_single E self sample rank w in
  (forall r, out.1 = Ok r -> r = sample) /\
  dom (heap out.2) = dom (heap w) /\
  (forall l key,
     l <> sample \/
     (key <> query_key (base self) /\ key <> response_key (base self)) ->
     field out.2 l key = field w l key).
Proof.
  intros out. destruct out as [r w'] eqn:Hout. subst out. simpl.
  apply process_single_inv in Hout
    as [(Hh & e & ->)|(m & ip & raw & q & a & w1 & _ & _ & _ & _ & Hh & Hm)].
  - split; [done|]. split; [by rewrite Hh|]. intros l key _. by apply field_heap.
  - apply merge_inv in Hm as (Hr & D & _ & _ & _ & F).
    split; [exact Hr|]. split; [by rewrite D; simpl; rewrite Hh|].
    intros l key Hne.
    assert (Hw : field (logged raw w1) l key = field w l key)
      by by apply field_heap.
    destruct (F l key) as [->|(-> & [(-> & _)|(-> & _)])]; [done|naive_solver..].
Qed.

Lemma process_single_in_place_demo :
  let out := process_single (demo_env 0 garbage_reply) demo_self 1%positive None
               demo_world in
  dom (heap out.2) = dom (heap demo_world) /\
  field out.2 1%positive (u8 "meta") = Some (VInt 3).
Proof.
  pose proof (process_single_in_place (demo_env 0 garbage_reply) demo_self
                1%positive None demo_world) as (_ & Hd & Hf).
  split; [exact Hd|].
  rewrite Hf; [reflexivity|right; split; vm_compute; discriminate].
Defined.

(** ** The request to the model (lines 121-137) *)

Lemma keywords_single key v d :
  keywords [(key, v)] d
  = match d !! key with
    | None => Ok (<[key := v]> d)
    | Some _ => Raise (TypeError "got multiple values for keyword argument")
    end.
Proof.
  unfold keywords. simpl. destruct (d !! key) eqn:Hk.
  - by rewrite bool_decide_eq_true_2.
  - rewrite bool_decide_eq_false_2 by (by intros [? ?]). simpl.
    by rewrite insert_empty, <- insert_union_singleton_l.
Qed.

(** What follows [ask] sends nothing, and logs the raw reply. *)
Lemma process_single_after_ask E self sample rank w m input_prompt res w1 :
  get_model E (model_key self) rank (use_cuda (base self)) = Ok m ->
  build_input self sample w = (Ok input_prompt, w) ->
  ask self m input_prompt w = (res, w1) ->
  let out := process_single E self sample rank w in
  sent out.2 = sent w1 /\
  match res with
  | Ok raw => log out.2 = log w ++ [Debug raw]
  | Raise e => out = (Raise e, w1)
  end.
Proof.
  intros Hg Hb Ha out.
  assert (Hrun : out =
            match res with
            | Ok raw =>
                match parse_output self raw w1 with
                | (Ok (q, a), w2) => merge self sample q a w2
                | (Raise e, w2) => (Raise e, w2)
                end
            | Raise e => (Raise e, w1)
            end).
  { subst out. unfold process_single.
    rewrite bind_run. unfold lift at 1. rewrite Hg.
    rewrite bind_run, Hb, bind_run, Ha.
    destruct res as [raw|e]; [|reflexivity].
    rewrite bind_run. by destruct (parse_output self raw w1) as [[[q a]|e] w2]. }
  rewrite Hrun. clear Hrun out.
  destruct res as [raw|e]; [|done].
  apply ask_inv in Ha as (_ & Hl & _).
  destruct (parse_output self raw w1) as [[[q a]|e] w2] eqn:Hp;
    pose proof (parse_output_world _ _ _ _ _ Hp) as ->.
  - destruct (merge self sample q a (logged raw w1)) as [r w3] eqn:Hm.
    apply merge_inv in Hm as (_ & _ & L & _ & S & _).
    simpl. rewrite L, S. simpl. by rewrite Hl.
  - simpl. by rewrite Hl.
Qed.

(** C9.  [process_single] sends at most one request, and a request carries
    the two-turn conversation: the system turn with the configured system
    prompt, then the user turn with the built input.  On the pipeline backend
    the request has [return_full_text=False] next to the sampling parameters
    as they are, and the [generated_text] of the first result is the raw
    reply: the value [ask] returns and [parse_output] logs. *)
Theorem process_single_request E self sample rank w :
  let out := process_single E self sample rank w in
  (sent out.2 = sent w \/
   exists input_prompt i,
     build_input self sample w = (Ok input_prompt, w) /\
     sent out.2 = sent w ++ [i] /\
     let messages :=
       [ {| role := u8 "system"; content := system_prompt self |};
         {| role := u8 "user"; content := input_prompt |} ] in
     if enable_vllm self then i = Chat messages (sampling_params self)
     else exists d,
         sampling_params self = SamplingDict d /\
         d !! u8 "return_full_text" = None /\
         i = Pipe messages (<[u8 "return_full_text" := VBool false]> d)) /\
  (forall m input_prompt d g gs v,
     enable_vllm self = false ->
     get_model E (model_key self) rank (use_cuda (base self)) = Ok m ->
     build_input self sample w = (Ok input_prompt, w) ->
     sampling_params self = SamplingDict d ->
     d !! u8 "return_full_text" = None ->
     let messages :=
       [ {| role := u8 "system"; content := system_prompt self |};
         {| role := u8 "user"; content := input_prompt |} ] in
     let kw := <[u8 "return_full_text" := VBool false]> d in
     pipe m messages kw = Ok (g :: gs) ->
     g !! u8 "generated_text" = Some v ->
     (ask self m input_prompt w).1 = Ok v /\
     sent out.2 = sent w ++ [Pipe messages kw] /\
     log out.2 = log w ++ [Debug v]).
Proof.
  intros out. split.
  - subst out.
    destruct (get_model E (model_key self) rank (use_cuda (base self)))
      as [m|e] eqn:Hg.
    2:{ left. unfold process_single. rewrite bind_run. unfold lift at 1.
        by rewrite Hg. }
    destruct (build_input self sample w) as [[ip|e] w0] eqn:Hb;
      pose proof (build_input_inv _ _ _ _ _ Hb) as ->.
    2:{ left. unfold process_single. rewrite bind_run. unfold lift at 1.
        rewrite Hg. by rewrite bind_run, Hb. }
    destruct (ask self m ip w) as [res w1] eqn:Ha.
    destruct (process_single_after_ask E self sample rank w m ip res w1 Hg Hb Ha)
      as [-> _].
    apply ask_inv in Ha as (_ & _ & [Hs|(i & Hs & Hi)]); [by left|].
    right. exists ip, i. split; [done|]. split; [done|]. unfold conversation in Hi.
    destruct (enable_vllm self); [done|].
    destruct Hi as (d & kw & Hd & Hk & ->). exists d.
    rewrite keywords_single in Hk. destruct (d !! u8 "return_full_text"); [done|].
    by injection Hk as <-.
  - intros m ip d g gs v Hv Hg Hb Hd Hk messages kw Hp Hgt.
    assert (Ha : ask self m ip w
                 = (Ok v, {| heap := heap w; log := log w; prepared := prepared w;
                             sent := sent w ++ [Pipe messages kw] |})).
    { unfold ask. rewrite Hv, Hd, bind_run. unfold lift at 1.
      rewrite keywords_single, Hk. fold kw. fold messages.
      rewrite bind_run, send_run, Hp. by rewrite Hgt. }
    destruct (process_single_after_ask E self sample rank w m ip _ _ Hg Hb Ha)
      as [Hs Hl].
    rewrite Ha. by repeat split.
Qed.

Lemma process_single_request_demo :
  let out := process_single (demo_env 0 garbage_reply) demo_self 1%positive None
               demo_world in
  let input_prompt :=
    u8 "以下是原始问答对：" ++ LF ++ u8 "【问题】" ++ LF ++ u8 "Q1" ++ LF
    ++ u8 "【回答】" ++ LF ++ u8 "A1" in
  let messages :=
    [ {| role := u8 "system"; content := system_prompt demo_self |};
      {| role := u8 "user"; content := input_prompt |} ] in
  let kw := <[u8 "return_full_text" := VBool false]> (∅ : gmap str value) in
  (ask demo_self (demo_model garbage_reply) input_prompt demo_world).1
  = Ok (VStr garbage_reply) /\
  sent out.2 = sent demo_world ++ [Pipe messages kw] /\
  log out.2 = log demo_world ++ [Debug (VStr garbage_reply)].
Proof.
  apply (proj2 (process_single_request (demo_env 0 garbage_reply) demo_self
                  1%positive None demo_world)
           (demo_model garbage_reply)
           (u8 "以下是原始问答对：" ++ LF ++ u8 "【问题】" ++ LF ++ u8 "Q1" ++ LF
            ++ u8 "【回答】" ++ LF ++ u8 "A1")
           ∅ {[ u8 "generated_text" := VStr garbage_reply ]} []
           (VStr garbage_reply)); vm_compute; reflexivity.
Defined.

(** ** The matcher against the language of a regex *)

Lemma orelse_some {R} (a b : option R) x :
  Re.orelse a b = Some x -> a = Some x \/ b = Some x.
Proof. destruct a; auto. Qed.

Lemma orelse_is_some {R} (a b : option R) :
  is_Some a \/ is_Some b -> is_Some (Re.orelse a b).
Proof. destruct a; simpl; [eauto|]. by intros [[? ?]|?]. Qed.

Lemma star_greedy_sound {R} dotall cs s (k : str -> option R) x :
  Re.star_greedy dotall cs s k = Some x ->
  exists s1 s2, s = s1 ++ s2 /\
    Forall (fun c => Re.cs_match dotall cs c = true) s1 /\ k s2 = Some x.
Proof.
  induction s as [|c s IH]; simpl.
  - intros H. by exists [], [].
  - destruct (Re.cs_match dotall cs c) eqn:Hc.
    + intros H. apply orelse_some in H as [H|H].
      * destruct (IH H) as (s1 & s2 & -> & F & Hk).
        exists (c :: s1), s2. repeat split; auto.
      * by exists [], (c :: s).
    + intros H. by exists [], (c :: s).
Qed.

Lemma star_lazy_sound {R} dotall cs s (k : str -> option R) x :
  Re.star_lazy dotall cs s k = Some x ->
  exists s1 s2, s = s1 ++ s2 /\
    Forall (fun c => Re.cs_match dotall cs c = true) s1 /\ k s2 = Some x.
Proof.
  induction s as [|c s IH]; simpl; intros H; apply orelse_some in H as [H|H];
    try (by exists [], []); try done.
  - by exists [], (c :: s).
  - destruct (Re.cs_match dotall cs c) eqn:Hc; [|done].
    destruct (IH H) as (s1 & s2 & -> & F & Hk).
    exists (c :: s1), s2. repeat split; auto.
Qed.

Lemma star_complete {R} dotall (g : bool) cs s1 s2 (k : str -> option R) :
  Forall (fun c => Re.cs_match dotall cs c = true) s1 ->
  is_Some (k s2) ->
  is_Some ((if g then Re.star_greedy else Re.star_lazy) dotall cs (s1 ++ s2) k).
Proof.
  intros F Hk. induction F as [|c s1 Hc F IH]; simpl.
  - destruct g, s2 as [|c s2]; simpl; try done;
      try (apply orelse_is_some; by left).
    destruct (Re.cs_match dotall cs c); [apply orelse_is_some; by right|done].
  - destruct g; simpl; rewrite Hc; apply orelse_is_some.
    + by left.
    + by right.
Qed.

(** Whatever the matcher returns was handed over by its continuation, after a
    word of the language. *)
Lemma rmatch_sound {R} dotall r : forall s c (k : str -> Re.caps -> option R) x,
  Re.rmatch dotall r s c k = Some x ->
  exists s1 s2 c', s = s1 ++ s2 /\ lang dotall r s1 /\ k s2 c' = Some x.
Proof.
  induction r as [|cs|g cs|r1 IH1 r2 IH2|r1 IH1 r2 IH2|n r IH]; intros s c k x; simpl.
  - intros H. by exists [], s, c.
  - destruct s as [|y s]; [done|]. destruct (Re.cs_match dotall cs y) eqn:Hy; [|done].
    intros H. exists [y], s, c. eauto.
  - intros H.
    assert (exists s1 s2, s = s1 ++ s2 /\
              Forall (fun c => Re.cs_match dotall cs c = true) s1 /\
              k s2 c = Some x) as (s1 & s2 & -> & F & Hk)
      by (destruct g; eauto using star_greedy_sound, star_lazy_sound).
    by exists s1, s2, c.
  - intros H. apply IH1 in H as (s1 & s2 & c1 & -> & L1 & H).
    apply IH2 in H as (s3 & s4 & c2 & -> & L2 & H).
    exists (s1 ++ s3), s4, c2. rewrite <- app_assoc. eauto 10.
  - intros H. apply orelse_some in H as [H|H];
      [apply IH1 in H|apply IH2 in H]; destruct H as (s1 & s2 & c' & -> & L & H);
      exists s1, s2, c'; auto.
  - intros H. apply IH in H as (s1 & s2 & c' & -> & L & H). eauto 10.
Qed.

(** A word of the language followed by anything the continuation accepts is
    matched. *)
Lemma rmatch_complete {R} dotall r : forall s1 s2 c (k : str -> Re.caps -> option R),
  lang dotall r s1 ->
  (forall c', is_Some (k s2 c')) ->
  is_Some (Re.rmatch dotall r (s1 ++ s2) c k).
Proof.
  induction r as [|cs|g cs|r1 IH1 r2 IH2|r1 IH1 r2 IH2|n r IH];
    intros s1 s2 c k; simpl.
  - intros -> Hk. apply Hk.
  - intros (y & -> & Hy) Hk. simpl. rewrite Hy. apply Hk.
  - intros F Hk. destruct g.
    + by apply (star_complete dotall true).
    + by apply (star_complete dotall false).
  - intros (a & b & -> & La & Lb) Hk. rewrite <- app_assoc.
    apply IH1; [done|]. intros c'. by apply IH2.
  - intros [L|L] Hk; apply orelse_is_some; [left; by apply IH1|right; by apply IH2].
  - intros L Hk. apply IH; [done|]. intros c'. apply Hk.
Qed.

Lemma match_here_sound dotall r adv s m :
  Re.match_here dotall r adv s = Some m ->
  exists s1, s = s1 ++ Re.rest m /\ lang dotall r s1.
Proof.
  unfold Re.match_here. intros H.
  apply rmatch_sound in H as (s1 & s2 & c' & -> & L & H).
  destruct (adv && _); [done|]. injection H as <-. by exists s1.
Qed.

Lemma match_here_complete dotall r s1 s2 :
  lang dotall r s1 -> is_Some (Re.match_here dotall r false (s1 ++ s2)).
Proof.
  intros L. unfold Re.match_here. apply rmatch_complete; [done|].
  intros c'. simpl. eauto.
Qed.

Lemma search_sound dotall r : forall s adv m,
  Re.search dotall r adv s = Some m ->
  exists p s1, s = p ++ s1 ++ Re.rest m /\ lang dotall r s1.
Proof.
  induction s as [|c s IH]; intros adv m; simpl.
  - destruct (Re.match_here dotall r adv []) eqn:Hm; [|done].
    intros [= ->]. apply match_here_sound in Hm as (s1 & Hs & L). by exists [], s1.
  - destruct (Re.match_here dotall r adv (c :: s)) eqn:Hm.
    + intros [= ->]. apply match_here_sound in Hm as (s1 & Hs & L). by exists [], s1.
    + intros H. apply IH in H as (p & s1 & -> & L). by exists (c :: p), s1.
Qed.

Lemma search_complete dotall r p s1 s2 :
  lang dotall r s1 -> is_Some (Re.search dotall r false (p ++ s1 ++ s2)).
Proof.
  intros L. induction p as [|c p IH]; simpl.
  - pose proof (match_here_complete dotall r s1 s2 L) as [m Hm].
    destruct (s1 ++ s2); simpl; rewrite Hm; eauto.
  - destruct (Re.match_here dotall r false (c :: p ++ s1 ++ s2)); eauto.
Qed.

(** ** The default pattern *)

Lemma compile_default :
  Re.compile DEFAULT_OUTPUT_PATTERN = Some (default_regex, 2%nat).
Proof. vm_compute. reflexivity. Qed.

Lemma Forall_any (s : str) :
  Forall (fun c => Re.cs_match true Re.CAny c = true) s.
Proof. induction s; constructor; auto. Qed.

(** Under dot-matches-newline the default pattern denotes the replies that
    end the question marker and, later, the answer marker. *)
Lemma lang_default s :
  lang true default_regex s <->
  exists a b c, s = a ++ u8 "【问题】" ++ b ++ u8 "【回答】" ++ c.
Proof.
  change (u8 "【问题】") with [12304; 38382; 39064; 12305].
  change (u8 "【回答】") with [12304; 22238; 31572; 12305].
  unfold default_regex. split.
  - simpl. intros H.
    repeat match goal with
           | H : exists _, _ |- _ => destruct H as [? H]
           | H : _ /\ _ |- _ => destruct H as [? H]
           end.
    repeat match goal with H : (_ =? _) = true |- _ =>
             apply N.eqb_eq in H end.
    subst.
    match goal with
    | |- context [?a ++ [12304] ++ [38382] ++ [39064] ++ [12305]
                    ++ ?w1 ++ (?g1 ++ []) ++ ?w2 ++ [12304] ++ [22238]
                    ++ [31572] ++ [12305] ++ ?w3 ++ (?g2 ++ []) ++ []] =>
        exists a, (w1 ++ g1 ++ w2), (w3 ++ g2)
    end.
    simpl. rewrite !app_nil_r, <- !app_assoc. reflexivity.
  - intros (a & b & c & ->). simpl.
    exists a, ([12304; 38382; 39064; 12305] ++ b ++ [12304; 22238; 31572; 12305] ++ c).
    split; [done|]. split; [apply Forall_any|].
    do 4 (eexists [_], _; split; [reflexivity|]; split; [by eexists|]).
    exists [], (b ++ [12304; 22238; 31572; 12305] ++ c).
    split; [done|]. split; [constructor|].
    exists b, ([12304; 22238; 31572; 12305] ++ c).
    split; [done|]. split; [exists b, []; by rewrite app_nil_r; auto using Forall_any|].
    exists [], ([12304; 22238; 31572; 12305] ++ c).
    split; [done|]. split; [constructor|].
    do 4 (eexists [_], _; split; [reflexivity|]; split; [by eexists|]).
    exists [], c. split; [done|]. split; [constructor|].
    exists c, []. split; [by rewrite app_nil_r|]. split; [|done].
    exists c, []. by rewrite app_nil_r; auto using Forall_any.
Qed.

Lemma search_default_iff raw :
  is_Some (Re.search true default_regex false raw) <->
  exists a b c, raw = a ++ u8 "【问题】" ++ b ++ u8 "【回答】" ++ c.
Proof.
  split.
  - intros [m Hm]. apply search_sound in Hm as (p & s1 & -> & L).
    apply lang_default in L as (a & b & c & ->).
    exists (p ++ a), b, (c ++ Re.rest m). by rewrite <- !app_assoc.
  - intros (a & b & c & ->).
    assert (L : lang true default_regex (u8 "【问题】" ++ b ++ u8 "【回答】" ++ c)).
    { apply lang_default. exists [], b, c. symmetry. apply app_nil_l. }
    pose proof (search_complete true default_regex a _ [] L) as H.
    by rewrite app_nil_r in H.
Qed.

(** X1.  With the default pattern and dot-matches-newline, [re.findall] finds
    a match in a reply exactly when the reply contains ["【问题】"] and,
    somewhere after it, ["【回答】"]. *)
Theorem findall_default_iff raw :
  (exists x xs,
     re_findall DEFAULT_OUTPUT_PATTERN (VStr raw) true = Ok (VList (x :: xs))) <->
  (exists a b c, raw = a ++ u8 "【问题】" ++ b ++ u8 "【回答】" ++ c).
Proof.
  rewrite <- search_default_iff.
  destruct (findall_search _ _ _ raw true compile_default) as (items & Hf & Hh).
  simpl re_findall. rewrite Hf. split.
  - intros (x & xs & [= ->]). simpl in Hh.
    destruct (Re.search true default_regex false raw); [eauto|done].
  - intros [m Hm]. rewrite Hm in Hh. destruct items as [|x xs]; [done|eauto].
Qed.

Lemma findall_default_iff_example :
  exists x xs,
    re_findall DEFAULT_OUTPUT_PATTERN (VStr empty_question_reply) true
    = Ok (VList (x :: xs)).
Proof.
  apply (proj2 (findall_default_iff empty_question_reply)).
  exists [], (LF ++ LF), (LF ++ u8 "New A").
  unfold empty_question_reply. rewrite <- (app_assoc LF LF). reflexivity.
Defined.

(** The last group of the default pattern is greedy and, with dot matching
    newline, takes the rest of the reply. *)
Lemma star_greedy_any {R} s (k : str -> option R) :
  is_Some (k []) -> Re.star_greedy true Re.CAny s k = k [].
Proof.
  intros [x Hx]. induction s as [|c s IH]; simpl; [done|].
  by rewrite IH, Hx.
Qed.

Lemma rmatch_seq_tail {R} dotall r1 r2 s c (k : str -> Re.caps -> option R) x :
  Re.rmatch dotall (Re.Seq r1 r2) s c k = Some x ->
  exists s' c', Re.rmatch dotall r2 s' c' k = Some x.
Proof.
  simpl. intros H. apply rmatch_sound in H as (s1 & s2 & c' & _ & _ & H). eauto.
Qed.

Lemma match_here_default_rest s m :
  Re.match_here true default_regex false s = Some m -> Re.rest m = [].
Proof.
  unfold Re.match_here, default_regex. intros H.
  do 13 (apply rmatch_seq_tail in H as (? & ? & H)).
  cbn [Re.rmatch] in H. rewrite star_greedy_any in H by (simpl; eauto).
  simpl in H. by injection H as <-.
Qed.

Lemma search_default_rest : forall s m,
  Re.search true default_regex false s = Some m -> Re.rest m = [].
Proof.
  induction s as [|c s IH]; intros m H; cbn [Re.search] in H.
  - destruct (Re.match_here true default_regex false []) eqn:Hm; [|done].
    injection H as ->. eauto using match_here_default_rest.
  - destruct (Re.match_here true default_regex false (c :: s)) eqn:Hm.
    + injection H as ->. eauto using match_here_default_rest.
    + by apply IH.
Qed.

Lemma findall_default_cases raw :
  (Re.search true default_regex false raw = None /\
   re_findall DEFAULT_OUTPUT_PATTERN (VStr raw) true = Ok (VList [])) \/
  (exists m,
     Re.search true default_regex false raw = Some m /\
     re_findall DEFAULT_OUTPUT_PATTERN (VStr raw) true
     = Ok (VList [VTuple [VStr (default [] (Re.cap 1 (Re.captured m)));
                          VStr (default [] (Re.cap 2 (Re.captured m)))]])).
Proof.
  simpl re_findall. unfold Re.findall. rewrite compile_default.
  replace (2 * length raw + 2)%nat with (S (S (2 * length raw))) by lia.
  cbn [Re.scan].
  destruct (Re.search true default_regex false raw) as [m|] eqn:Hs; [|by left].
  right. exists m. split; [done|]. rewrite (search_default_rest _ _ Hs).
  replace (Re.search true default_regex _ []) with (@None Re.found)
    by (by destruct (Re.whole m)).
  reflexivity.
Qed.

(** X2.  With the default pattern and dot-matches-newline, [re.findall]
    returns at most one item, a pair of strings: the first match runs to the
    end of the reply and leaves nothing to scan. *)
Theorem findall_default_single raw :
  re_findall DEFAULT_OUTPUT_PATTERN (VStr raw) true = Ok (VList []) \/
  exists g1 g2,
    re_findall DEFAULT_OUTPUT_PATTERN (VStr raw) true
    = Ok (VList [VTuple [VStr g1; VStr g2]]).
Proof.
  destruct (findall_default_cases raw) as [[_ H]|(m & _ & H)]; eauto.
Qed.

(** ** What [parse_output] and [process_single] can do at all *)

Lemma build_input_demo_run :
  build_input demo_self 1%positive demo_world
  = (Ok (u8 "以下是原始问答对：" ++ LF ++ u8 "【问题】" ++ LF ++ u8 "Q1" ++ LF
         ++ u8 "【回答】" ++ LF ++ u8 "A1"), demo_world).
Proof. vm_compute. reflexivity. Qed.

Lemma parse_output_ok self raw w q a w' :
  parse_output self raw w = (Ok (q, a), w') ->
  q = VNone /\ a = VNone /\
  re_findall (output_pattern self) raw true = Ok (VList []).
Proof.
  intros H.
  destruct (re_findall (output_pattern self) raw true) as [ms|e] eqn:Hf.
  - destruct (findall_plain _ _ _ _ Hf) as (items & -> & _).
    destruct items as [|x xs].
    + rewrite (parse_output_nil self raw w Hf) in H. by injection H as <- <- _.
    + by rewrite (parse_output_cons self raw w x xs Hf) in H.
  - unfold parse_output in H. rewrite bind_run, logger_debug_run in H.
    rewrite bind_run in H. unfold lift at 1 in H. by rewrite Hf in H.
Qed.

(** X3.  [parse_output] never returns a parsed half: when it returns, it
    returns [(None, None)], and the pattern found no match in the reply. *)
Theorem parse_output_returns_none_only self raw w q a w' :
  parse_output self raw w = (Ok (q, a), w') ->
  q = VNone /\ a = VNone /\
  re_findall (output_pattern self) raw true = Ok (VList []).
Proof. apply parse_output_ok. Qed.

Lemma parse_output_returns_none_only_demo :
  VNone = VNone /\ VNone = VNone /\
  re_findall (output_pattern demo_self) (VStr garbage_reply) true = Ok (VList []).
Proof.
  apply (parse_output_returns_none_only demo_self (VStr garbage_reply) demo_world
           VNone VNone (logged (VStr garbage_reply) demo_world)).
  vm_compute. reflexivity.
Defined.

Lemma merge_none self sample w :
  merge self sample VNone VNone w = (Ok sample, w).
Proof. reflexivity. Qed.

(** X4.  [process_single] never writes: whatever the configuration, the
    sample and the reply of the model, every object is after the call what it
    was before, and no model has been prepared. *)
Theorem process_single_never_writes E self sample rank w :
  heap (process_single E self sample rank w).2 = heap w /\
  prepared (process_single E self sample rank w).2 = prepared w.
Proof.
  destruct (process_single E self sample rank w) as [r w'] eqn:H. simpl.
  unfold process_single in H. rewrite bind_run in H. unfold lift at 1 in H.
  destruct (get_model E _ _ _) as [m|e]; [|by injection H as _ <-].
  rewrite bind_run in H.
  destruct (build_input self sample w) as [[ip|e] w0] eqn:Hb;
    pose proof (build_input_inv _ _ _ _ _ Hb) as ->;
    [|by injection H as _ <-].
  rewrite bind_run in H.
  destruct (ask self m ip w) as [[raw|e] w1] eqn:Ha;
    pose proof (ask_inv _ _ _ _ _ _ Ha) as ([Hh Hp] & _);
    [|by injection H as _ <-].
  rewrite bind_run in H.
  destruct (parse_output self raw w1) as [[[q a]|e] w2] eqn:Ho;
    pose proof (parse_output_world _ _ _ _ _ Ho) as ->;
    [|by injection H as _ <-].
  apply parse_output_ok in Ho as (-> & -> & _).
  rewrite merge_none in H. by injection H as _ <-.
Qed.

(** X5.  With the default pattern, once the model has answered with a string:
    if the reply contains ["【问题】"] and later ["【回答】"], [process_single]
    raises [AttributeError] (a tuple has no [group]); otherwise it returns the
    sample.  Either way the reply has been logged. *)
Theorem process_single_default_pattern E self sample rank w m input_prompt raw w1 :
  output_pattern self = DEFAULT_OUTPUT_PATTERN ->
  get_model E (model_key self) rank (use_cuda (base self)) = Ok m ->
  build_input self sample w = (Ok input_prompt, w) ->
  ask self m input_prompt w = (Ok (VStr raw), w1) ->
  ((exists a b c, raw = a ++ u8 "【问题】" ++ b ++ u8 "【回答】" ++ c) ->
   process_single E self sample rank w
   = (Raise (AttributeError "tuple" "group"), logged (VStr raw) w1)) /\
  (~ (exists a b c, raw = a ++ u8 "【问题】" ++ b ++ u8 "【回答】" ++ c) ->
   process_single E self sample rank w = (Ok sample, logged (VStr raw) w1)).
Proof.
  intros Hp Hg Hb Ha.
  assert (Hrun : process_single E self sample rank w
                 = match parse_output self (VStr raw) w1 with
                   | (Ok (q, a), w2) => merge self sample q a w2
                   | (Raise e, w2) => (Raise e, w2)
                   end).
  { unfold process_single. rewrite bind_run. unfold lift at 1. rewrite Hg.
    rewrite bind_run, Hb, bind_run, Ha, bind_run.
    by destruct (parse_output self (VStr raw) w1) as [[[q a]|e] w2]. }
  rewrite Hrun. clear Hrun.
  pose proof (search_default_iff raw) as Hi.
  destruct (findall_default_cases raw) as [[Hs Hf]|(x & Hs & Hf)];
    rewrite <- Hp in Hf; rewrite Hs in Hi; split.
  - intros Hin. apply Hi in Hin. by destruct Hin.
  - intros _. by rewrite (parse_output_nil self (VStr raw) w1 Hf).
  - intros _. by rewrite (parse_output_cons self (VStr raw) w1 _ _ Hf).
  - intros Hout. destruct Hout. apply Hi. eauto.
Qed.

Lemma process_single_default_pattern_demo :
  process_single (demo_env 0 empty_question_reply) demo_self 1%positive None
    demo_world
  = (Raise (AttributeError "tuple" "group"),
     logged (VStr empty_question_reply)
       (ask demo_self (demo_model empty_question_reply)
          (u8 "以下是原始问答对：" ++ LF ++ u8 "【问题】" ++ LF ++ u8 "Q1" ++ LF
           ++ u8 "【回答】" ++ LF ++ u8 "A1") demo_world).2).
Proof.
  assert (Ha : ask demo_self (demo_model empty_question_reply)
                 (u8 "以下是原始问答对：" ++ LF ++ u8 "【问题】" ++ LF ++ u8 "Q1"
                  ++ LF ++ u8 "【回答】" ++ LF ++ u8 "A1") demo_world
               = (Ok (VStr empty_question_reply),
                  (ask demo_self (demo_model empty_question_reply)
                     (u8 "以下是原始问答对：" ++ LF ++ u8 "【问题】" ++ LF ++ u8 "Q1"
                      ++ LF ++ u8 "【回答】" ++ LF ++ u8 "A1") demo_world).2))
    by (vm_compute; reflexivity).
  assert (Hp : output_pattern demo_self = DEFAULT_OUTPUT_PATTERN)
    by (unfold demo_self; reflexivity).
  assert (Hg : get_model (demo_env 0 empty_question_reply) (model_key demo_self)
                 None (use_cuda (base demo_self))
               = Ok (demo_model empty_question_reply))
    by (unfold demo_env; reflexivity).
  apply (proj1 (process_single_default_pattern (demo_env 0 empty_question_reply)
                  demo_self 1%positive None demo_world
                  (demo_model empty_question_reply) _ empty_question_reply _
                  Hp Hg build_input_demo_run Ha)).
  exists [], (LF ++ LF), (LF ++ u8 "New A").
  unfold empty_question_reply. rewrite <- (app_assoc LF LF). reflexivity.
Defined.

(** ** Failures on the way to the parser *)

Lemma ask_pipeline_run self m input_prompt w d :
  enable_vllm self = false ->
  sampling_params self = SamplingDict d ->
  d !! u8 "return_full_text" = None ->
  let kw := <[u8 "return_full_text" := VBool false]> d in
  ask self m input_prompt w
  = (match pipe m (conversation self input_prompt) kw with
     | Ok (g :: _) =>
         match g !! u8 "generated_text" with
         | Some v => Ok v
         | None => Raise (KeyError (u8 "generated_text"))
         end
     | Ok [] => Raise IndexError
     | Raise e => Raise e
     end,
     requested (Pipe (conversation self input_prompt) kw) w).
Proof.
  intros Hv Hd Hk kw. unfold ask. fold (conversation self input_prompt).
  rewrite Hv, Hd, bind_run. unfold lift at 1. rewrite keywords_single, Hk.
  fold kw. rewrite bind_run, send_run.
  fold (requested (Pipe (conversation self input_prompt) kw) w).
  destruct (pipe m _ kw) as [[|g gs]|e]; try done.
  by destruct (g !! u8 "generated_text").
Qed.

Lemma ask_vllm_run self m input_prompt w :
  enable_vllm self = true ->
  ask self m input_prompt w
  = (match chat m (conversation self input_prompt) (sampling_params self) with
     | Ok (r :: _) =>
         match outputs r with
         | o :: _ => Ok (VStr (text o))
         | [] => Raise IndexError
         end
     | Ok [] => Raise IndexError
     | Raise e => Raise e
     end,
     requested (Chat (conversation self input_prompt) (sampling_params self)) w).
Proof.
  intros Hv. unfold ask. fold (conversation self input_prompt).
  rewrite Hv, bind_run, send_run.
  fold (requested (Chat (conversation self input_prompt) (sampling_params self)) w).
  destruct (chat m _ _) as [[|r rs]|e]; try done.
  by destruct (outputs r).
Qed.

Lemma process_single_run E self sample rank w m input_prompt res w1 :
  get_model E (model_key self) rank (use_cuda (base self)) = Ok m ->
  build_input self sample w = (Ok input_prompt, w) ->
  ask self m input_prompt w = (res, w1) ->
  process_single E self sample rank w
  = match res with
    | Ok raw =>
        match parse_output self raw w1 with
        | (Ok (q, a), w2) => merge self sample q a w2
        | (Raise e, w2) => (Raise e, w2)
        end
    | Raise e => (Raise e, w1)
    end.
Proof.
  intros Hg Hb Ha. unfold process_single.
  rewrite bind_run. unfold lift at 1. rewrite Hg.
  rewrite bind_run, Hb, bind_run, Ha.
  destruct res as [raw|e]; [|reflexivity].
  rewrite bind_run. by destruct (parse_output self raw w1) as [[[q a]|e] w2].
Qed.

(** X6.  An error of [get_model], or else of [build_input], is raised as it
    is, with the world untouched: no request is sent and nothing is logged.
    [get_model] comes first: its error wins over a missing field. *)
Theorem process_single_early_error E self sample rank w e :
  (get_model E (model_key self) rank (use_cuda (base self)) = Raise e ->
   process_single E self sample rank w = (Raise e, w)) /\
  (forall m,
     get_model E (model_key self) rank (use_cuda (base self)) = Ok m ->
     (build_input self sample w).1 = Raise e ->
     process_single E self sample rank w = (Raise e, w)).
Proof.
  split.
  - intros Hg. unfold process_single. rewrite bind_run. unfold lift at 1.
    by rewrite Hg.
  - intros m Hg Hb. unfold process_single. rewrite bind_run. unfold lift at 1.
    rewrite Hg, bind_run.
    destruct (build_input self sample w) as [r w0] eqn:Hr.
    pose proof (build_input_inv _ _ _ _ _ Hr) as ->. simpl in Hb. by subst r.
Qed.

Lemma process_single_early_error_demo :
  process_single (env_of (Raise (External 1))) demo_self 2%positive None demo_world
  = (Raise (External 1), demo_world).
Proof.
  apply (proj1 (process_single_early_error (env_of (Raise (External 1))) demo_self
                  2%positive None demo_world (External 1))).
  reflexivity.
Defined.

(** X7.  An error raised by the model is raised by [process_single] as it is,
    on either backend: the request has been sent, nothing is logged and
    nothing is written. *)
Theorem process_single_model_error E self sample rank w m input_prompt e :
  get_model E (model_key self) rank (use_cuda (base self)) = Ok m ->
  build_input self sample w = (Ok input_prompt, w) ->
  (enable_vllm self = true ->
   chat m (conversation self input_prompt) (sampling_params self) = Raise e ->
   process_single E self sample rank w
   = (Raise e,
      requested (Chat (conversation self input_prompt) (sampling_params self)) w)) /\
  (forall d,
     enable_vllm self = false ->
     sampling_params self = SamplingDict d ->
     d !! u8 "return_full_text" = None ->
     pipe m (conversation self input_prompt)
       (<[u8 "return_full_text" := VBool false]> d) = Raise e ->
     process_single E self sample rank w
     = (Raise e,
        requested (Pipe (conversation self input_prompt)
                     (<[u8 "return_full_text" := VBool false]> d)) w)).
Proof.
  intros Hg Hb. split.
  - intros Hv Hc.
    rewrite (process_single_run E self sample rank w m input_prompt _ _ Hg Hb
               (ask_vllm_run self m input_prompt w Hv)).
    by rewrite Hc.
  - intros d Hv Hd Hk Hc.
    rewrite (process_single_run E self sample rank w m input_prompt _ _ Hg Hb
               (ask_pipeline_run self m input_prompt w d Hv Hd Hk)).
    by rewrite Hc.
Qed.

Lemma process_single_model_error_demo :
  process_single (env_of (Ok (broken_model (External 2)))) demo_self 1%positive
    None demo_world
  = (Raise (External 2),
     requested (Pipe (conversation demo_self demo_prompt)
                  (<[u8 "return_full_text" := VBool false]> ∅)) demo_world).
Proof.
  assert (Hb : build_input demo_self 1%positive demo_world
               = (Ok demo_prompt, demo_world)) by (vm_compute; reflexivity).
  apply (proj2 (process_single_model_error
                  (env_of (Ok (broken_model (External 2)))) demo_self 1%positive
                  None demo_world (broken_model (External 2)) demo_prompt
                  (External 2) eq_refl Hb) ∅); reflexivity.
Defined.

(** X8.  A model that answers with no result makes [process_single] raise
    [IndexError], on either backend, and a first pipeline result without
    [generated_text] makes it raise [KeyError]; the request has been sent,
    nothing is logged and nothing is written. *)
Theorem process_single_bad_response E self sample rank w m input_prompt :
  get_model E (model_key self) rank (use_cuda (base self)) = Ok m ->
  build_input self sample w = (Ok input_prompt, w) ->
  (enable_vllm self = true ->
   let i := Chat (conversation self input_prompt) (sampling_params self) in
   (chat m (conversation self input_prompt) (sampling_params self) = Ok [] ->
    process_single E self sample rank w = (Raise IndexError, requested i w)) /\
   (forall r rs,
      chat m (conversation self input_prompt) (sampling_params self) = Ok (r :: rs) ->
      outputs r = [] ->
      process_single E self sample rank w = (Raise IndexError, requested i w))) /\
  (forall d,
     enable_vllm self = false ->
     sampling_params self = SamplingDict d ->
     d !! u8 "return_full_text" = None ->
     let kw := <[u8 "return_full_text" := VBool false]> d in
     let i := Pipe (conversation self input_prompt) kw in
     (pipe m (conversation self input_prompt) kw = Ok [] ->
      process_single E self sample rank w = (Raise IndexError, requested i w)) /\
     (forall g gs,
        pipe m (conversation self input_prompt) kw = Ok (g :: gs) ->
        g !! u8 "generated_text" = None ->
        process_single E self sample rank w
        = (Raise (KeyError (u8 "generated_text")), requested i w))).
Proof.
  intros Hg Hb. split.
  - intros Hv i.
    rewrite (process_single_run E self sample rank w m input_prompt _ _ Hg Hb
               (ask_vllm_run self m input_prompt w Hv)).
    split; [by intros ->|]. intros r rs -> Ho. by rewrite Ho.
  - intros d Hv Hd Hk kw i.
    rewrite (process_single_run E self sample rank w m input_prompt _ _ Hg Hb
               (ask_pipeline_run self m input_prompt w d Hv Hd Hk)).
    fold kw. split; [by intros ->|]. intros g gs -> Ho. by rewrite Ho.
Qed.

Lemma process_single_bad_response_demo :
  process_single (env_of (Ok silent_model)) demo_vllm_self 1%positive None
    demo_world
  = (Raise IndexError,
     requested (Chat (conversation demo_vllm_self demo_prompt)
                  (sampling_params demo_vllm_self)) demo_world).
Proof.
  assert (Hb : build_input demo_vllm_self 1%positive demo_world
               = (Ok demo_prompt, demo_world)) by (vm_compute; reflexivity).
  apply (proj1 (proj1 (process_single_bad_response (env_of (Ok silent_model))
                         demo_vllm_self 1%positive None demo_world silent_model
                         demo_prompt eq_refl Hb) eq_refl)).
  reflexivity.
Defined.

(** X9.  On the pipeline backend, sampling parameters that themselves hold
    [return_full_text] make the call of line 134 a [TypeError] (the keyword
    is given twice): the model is not called and the world is untouched. *)
Theorem process_single_keyword_clash E self sample rank w m input_prompt d :
  get_model E (model_key self) rank (use_cuda (base self)) = Ok m ->
  build_input self sample w = (Ok input_prompt, w) ->
  enable_vllm self = false ->
  sampling_params self = SamplingDict d ->
  is_Some (d !! u8 "return_full_text") ->
  process_single E self sample rank w
  = (Raise (TypeError "got multiple values for keyword argument"), w).
Proof.
  intros Hg Hb Hv Hd [v Hk].
  assert (Ha : ask self m input_prompt w
               = (Raise (TypeError "got multiple values for keyword argument"), w)).
  { unfold ask. rewrite Hv, Hd, bind_run. unfold lift at 1.
    by rewrite keywords_single, Hk. }
  by rewrite (process_single_run E self sample rank w m input_prompt _ _ Hg Hb Ha).
Qed.

Lemma process_single_keyword_clash_demo :
  process_single (demo_env 0 garbage_reply) clash_self 1%positive None demo_world
  = (Raise (TypeError "got multiple values for keyword argument"), demo_world).
Proof.
  assert (Hb : build_input clash_self 1%positive demo_world
               = (Ok demo_prompt, demo_world)) by (vm_compute; reflexivity).
  apply (process_single_keyword_clash (demo_env 0 garbage_reply) clash_self
           1%positive None demo_world (demo_model garbage_reply) demo_prompt
           {[ u8 "return_full_text" := VBool true ]} eq_refl Hb eq_refl eq_refl).
  exists (VBool true). apply lookup_singleton_eq.
Defined.

(** X10.  On the vLLM backend the request is [model.chat] with the two-turn
    conversation and the sampling object of the mapper, and the text of the
    first completion of the first result is the raw reply: the value
    [parse_output] receives and logs. *)
Theorem process_single_vllm_reply E self sample rank w m input_prompt r rs o os :
  enable_vllm self = true ->
  get_model E (model_key self) rank (use_cuda (base self)) = Ok m ->
  build_input self sample w = (Ok input_prompt, w) ->
  chat m [ {| role := u8 "system"; content := system_prompt self |};
           {| role := u8 "user"; content := input_prompt |} ]
    (sampling_params self) = Ok (r :: rs) ->
  outputs r = o :: os ->
  let i := Chat [ {| role := u8 "system"; content := system_prompt self |};
                  {| role := u8 "user"; content := input_prompt |} ]
             (sampling_params self) in
  ask self m input_prompt w = (Ok (VStr (text o)), requested i w) /\
  sent (process_single E self sample rank w).2 = sent w ++ [i] /\
  log (process_single E self sample rank w).2 = log w ++ [Debug (VStr (text o))].
Proof.
  intros Hv Hg Hb Hc Ho i.
  pose proof (ask_vllm_run self m input_prompt w Hv) as Ha.
  unfold conversation in Ha. rewrite Hc, Ho in Ha. fold i in Ha.
  split; [exact Ha|].
  destruct (process_single_after_ask E self sample rank w m input_prompt _ _ Hg Hb Ha)
    as [Hs Hl].
  by split.
Qed.

Lemma process_single_vllm_reply_demo :
  let i := Chat [ {| role := u8 "system"; content := system_prompt demo_vllm_self |};
                  {| role := u8 "user"; content := demo_prompt |} ]
             (sampling_params demo_vllm_self) in
  let out := process_single (demo_env 1 garbage_reply) demo_vllm_self 1%positive
               None demo_world in
  ask demo_vllm_self (demo_model garbage_reply) demo_prompt demo_world
  = (Ok (VStr (text {| text := garbage_reply |})), requested i demo_world) /\
  sent out.2 = sent demo_world ++ [i] /\
  log out.2 = log demo_world ++ [Debug (VStr (text {| text := garbage_reply |}))].
Proof.
  assert (Hb : build_input demo_vllm_self 1%positive demo_world
               = (Ok demo_prompt, demo_world)) by (vm_compute; reflexivity).
  exact (process_single_vllm_reply (demo_env 1 garbage_reply) demo_vllm_self
           1%positive None demo_world (demo_model garbage_reply) demo_prompt
           {| outputs := [ {| text := garbage_reply |} ] |} []
           {| text := garbage_reply |} [] eq_refl eq_refl Hb eq_refl eq_refl).
Defined.



(** ** The merge of lines 139-145, given a parsed pair *)

Lemma setitem_run sample key v w d :
  heap w !! sample = Some d ->
  setitem sample key v w
  = (Ok tt, {| heap := <[sample := <[key := v]> d]> (heap w); log := log w;
               prepared := prepared w; sent := sent w |}).
Proof. intros H. unfold setitem. by rewrite H. Qed.

Lemma field_after_insert w w' sample d l k :
  heap w' = <[sample := d]> (heap w) ->
  field w' l k = if decide (l = sample) then d !! k else field w l k.
Proof.
  intros H. unfold field. rewrite H. case_decide as Hl.
  - subst l. by rewrite lookup_insert_eq.
  - by rewrite lookup_insert_ne.
Qed.

Lemma merge_heap self sample q a w d :
  heap w !! sample = Some d ->
  let d1 := if truthy q then <[query_key (base self) := q]> d else d in
  let d2 := if truthy a then <[response_key (base self) := a]> d1 else d1 in
  (merge self sample q a w).1 = Ok sample /\
  heap (merge self sample q a w).2 = <[sample := d2]> (heap w).
Proof.
  intros Hd d1 d2. unfold merge. rewrite bind_run.
  assert (H1 : exists w1,
             (if truthy q then setitem sample (query_key (base self)) q
              else mret tt) w = (Ok tt, w1) /\
             heap w1 = <[sample := d1]> (heap w)).
  { subst d1. destruct (truthy q).
    - rewrite (setitem_run _ _ _ _ _ Hd). eauto.
    - exists w. split; [done|]. by rewrite insert_id. }
  destruct H1 as (w1 & -> & Hw1). rewrite bind_run.
  assert (Hd1 : heap w1 !! sample = Some d1)
    by (rewrite Hw1; apply lookup_insert_eq).
  assert (H2 : exists w2,
             (if truthy a then setitem sample (response_key (base self)) a
              else mret tt) w1 = (Ok tt, w2) /\
             heap w2 = <[sample := d2]> (heap w)).
  { subst d2. destruct (truthy a).
    - rewrite (setitem_run _ _ _ _ _ Hd1). eexists. split; [done|].
      simpl. by rewrite Hw1, insert_insert_eq.
    - exists w1. by split. }
  destruct H2 as (w2 & -> & Hw2). by split.
Qed.

(** X12.  Given a parsed pair and a sample with distinct question and answer
    keys, lines 139-145 return the sample, write each truthy half to its own
    field, leave a field whose half is [None] or empty as it was, and touch
    no other field. *)
Theorem merge_writes_halves self sample q a w d :
  heap w !! sample = Some d ->
  query_key (base self) <> response_key (base self) ->
  let out := merge self sample q a w in
  out.1 = Ok sample /\
  field out.2 sample (query_key (base self))
  = (if truthy q then Some q else d !! query_key (base self)) /\
  field out.2 sample (response_key (base self))
  = (if truthy a then Some a else d !! response_key (base self)) /\
  (forall k, k <> query_key (base self) -> k <> response_key (base self) ->
             field out.2 sample k = d !! k).
Proof.
  intros Hd Hne out. subst out.
  destruct (merge_heap self sample q a w d Hd) as [Hr Hh].
  split; [exact Hr|].
  assert (Hf : forall k,
             field (merge self sample q a w).2 sample k
             = (if truthy a then <[response_key (base self) := a]>
                                   (if truthy q then <[query_key (base self) := q]> d
                                    else d)
                else if truthy q then <[query_key (base self) := q]> d else d) !! k).
  { intros k. rewrite (field_after_insert w _ sample _ sample k Hh).
    by rewrite decide_True. }
  rewrite !Hf. repeat split.
  - destruct (truthy a), (truthy q);
      rewrite ?(lookup_insert_ne _ (response_key (base self))) by done;
      by rewrite ?lookup_insert_eq.
  - destruct (truthy a), (truthy q);
      rewrite ?lookup_insert_eq; try done.
    by rewrite lookup_insert_ne.
  - intros k H1 H2. rewrite Hf.
    destruct (truthy a), (truthy q); by rewrite ?lookup_insert_ne.
Qed.

Lemma merge_writes_halves_demo :
  let out := merge demo_self 1%positive (VStr []) (VStr (u8 "New A")) demo_world in
  out.1 = Ok 1%positive /\
  field out.2 1%positive (u8 "query") = Some (VStr (u8 "Q1")) /\
  field out.2 1%positive (u8 "response") = Some (VStr (u8 "New A")) /\
  field out.2 1%positive (u8 "meta") = Some (VInt 3).
Proof.
  assert (Hd : heap demo_world !! 1%positive
               = Some {[ u8 "query" := VStr (u8 "Q1");
                         u8 "response" := VStr (u8 "A1");
                         u8 "meta" := VInt 3 ]}) by (vm_compute; reflexivity).
  assert (Hne : query_key (base demo_self) <> response_key (base demo_self))
    by (vm_compute; discriminate).
  destruct (merge_writes_halves demo_self 1%positive (VStr []) (VStr (u8 "New A"))
              demo_world _ Hd Hne) as (H1 & H2 & H3 & H4).
  split; [exact H1|].
  split; [etrans; [exact H2|vm_compute; reflexivity]|].
  split; [etrans; [exact H3|vm_compute; reflexivity]|].
  etrans; [apply H4; vm_compute; discriminate|vm_compute; reflexivity].
Defined.

(** ** More on the input builder *)

Lemma format_cons_other c t args :
  c <> 123 -> c <> 125 ->
  format (c :: t) args = rbind (format t args) (fun s => Ok (c :: s)).
Proof.
  intros H1 H2. destruct c as [|p]; [reflexivity|].
  do 7 (destruct p as [p|p|]; try reflexivity); congruence.
Qed.

Lemma format_plain_app t r args :
  Forall (fun c => c <> 123 /\ c <> 125) t ->
  format (t ++ r) args = rbind (format r args) (fun s => Ok (t ++ s)).
Proof.
  induction 1 as [|c t [H1 H2] F IH]; simpl app.
  - by destruct (format r args).
  - rewrite format_cons_other, IH by done. by destruct (format r args).
Qed.

Lemma format_slot r a args :
  format (u8 "{}" ++ r) (a :: args)
  = rbind (format_value a) (fun x =>
    rbind (format r args) (fun s => Ok (x ++ s))).
Proof. reflexivity. Qed.

Lemma format_slot_missing r : format (u8 "{}" ++ r) [] = Raise IndexError.
Proof. reflexivity. Qed.

Lemma format_plain t args :
  Forall (fun c => c <> 123 /\ c <> 125) t -> format t args = Ok t.
Proof.
  intros F. rewrite <- (app_nil_r t) at 1. rewrite format_plain_app by done.
  simpl. by rewrite app_nil_r.
Qed.

Lemma format_two_slots p0 p1 p2 x y :
  Forall (fun c => c <> 123 /\ c <> 125) p0 ->
  Forall (fun c => c <> 123 /\ c <> 125) p1 ->
  Forall (fun c => c <> 123 /\ c <> 125) p2 ->
  format (p0 ++ u8 "{}" ++ p1 ++ u8 "{}" ++ p2) [VStr x; VStr y]
  = Ok (p0 ++ x ++ p1 ++ y ++ p2).
Proof.
  intros F0 F1 F2.
  rewrite format_plain_app by done. rewrite format_slot. cbn [format_value rbind].
  rewrite format_plain_app by done. rewrite format_slot. cbn [format_value rbind].
  by rewrite format_plain.
Qed.

Lemma format_one_slot i0 i1 x ys :
  Forall (fun c => c <> 123 /\ c <> 125) i0 ->
  Forall (fun c => c <> 123 /\ c <> 125) i1 ->
  format (i0 ++ u8 "{}" ++ i1) (VStr x :: ys) = Ok (i0 ++ x ++ i1).
Proof.
  intros F0 F1.
  rewrite format_plain_app by done. rewrite format_slot. cbn [format_value rbind].
  by rewrite format_plain.
Qed.

(** X13.  [build_input] reads the question, then the answer: a sample without
    the question field raises [KeyError] for the question key, one with the
    question but without the answer field raises it for the answer key; the
    world is untouched. *)
Theorem build_input_missing_key self sample w d :
  heap w !! sample = Some d ->
  (d !! query_key (base self) = None ->
   build_input self sample w = (Raise (KeyError (query_key (base self))), w)) /\
  (is_Some (d !! query_key (base self)) ->
   d !! response_key (base self) = None ->
   build_input self sample w = (Raise (KeyError (response_key (base self))), w)).
Proof.
  intros Hd. unfold build_input. split.
  - intros Hq. rewrite bind_run. unfold getitem at 1. by rewrite Hd, Hq.
  - intros [q Hq] Ha. rewrite bind_run. unfold getitem at 1. rewrite Hd, Hq.
    rewrite bind_run. unfold getitem at 1. by rewrite Hd, Ha.
Qed.

Lemma build_input_missing_key_demo :
  build_input demo_self 1%positive
    {| heap := {[ 1%positive := {[ u8 "query" := VStr (u8 "Q1") ]} ]};
       log := []; prepared := []; sent := [] |}
  = (Raise (KeyError (response_key (base demo_self))),
     {| heap := {[ 1%positive := {[ u8 "query" := VStr (u8 "Q1") ]} ]};
        log := []; prepared := []; sent := [] |}).
Proof.
  apply (proj2 (build_input_missing_key demo_self 1%positive
                  {| heap := {[ 1%positive := {[ u8 "query" := VStr (u8 "Q1") ]} ]};
                     log := []; prepared := []; sent := [] |}
                  {[ u8 "query" := VStr (u8 "Q1") ]}
                  (lookup_singleton_eq _ _))).
  - exists (VStr (u8 "Q1")). vm_compute. reflexivity.
  - vm_compute. reflexivity.
Defined.

(** X14.  With a QA-pair template [p0{}p1{}p2] and an input template
    [i0{}i1], the pieces holding no brace, and a question [q] and an answer
    [a] that are strings, [build_input] returns [i0 p0 q p1 a p2 i1]: the
    texts of the sample are inserted as they are, braces included. *)
Theorem build_input_fills_slots self sample w p0 p1 p2 i0 i1 q a :
  Forall (fun c => c <> 123 /\ c <> 125) p0 ->
  Forall (fun c => c <> 123 /\ c <> 125) p1 ->
  Forall (fun c => c <> 123 /\ c <> 125) p2 ->
  Forall (fun c => c <> 123 /\ c <> 125) i0 ->
  Forall (fun c => c <> 123 /\ c <> 125) i1 ->
  qa_pair_template self = p0 ++ u8 "{}" ++ p1 ++ u8 "{}" ++ p2 ->
  input_template self = i0 ++ u8 "{}" ++ i1 ->
  field w sample (query_key (base self)) = Some (VStr q) ->
  field w sample (response_key (base self)) = Some (VStr a) ->
  build_input self sample w
  = (Ok (i0 ++ (p0 ++ q ++ p1 ++ a ++ p2) ++ i1), w).
Proof.
  intros F0 F1 F2 G0 G1 Hq Hi Fq Fa. unfold build_input.
  rewrite bind_run, (getitem_field _ _ _ _ Fq).
  rewrite bind_run, (getitem_field _ _ _ _ Fa).
  rewrite Hq, Hi, bind_run. unfold lift at 1.
  rewrite format_two_slots by done.
  rewrite bind_run. unfold lift at 1.
  by rewrite format_one_slot.
Qed.

Lemma build_input_fills_slots_demo :
  build_input demo_self 1%positive brace_world
  = (Ok ((u8 "以下是原始问答对：" ++ LF)
         ++ ((u8 "【问题】" ++ LF) ++ u8 "a{b}" ++ (LF ++ u8 "【回答】" ++ LF)
             ++ u8 "}c" ++ [])
         ++ []), brace_world).
Proof.
  apply (build_input_fills_slots demo_self 1%positive brace_world
           (u8 "【问题】" ++ LF) (LF ++ u8 "【回答】" ++ LF) []
           (u8 "以下是原始问答对：" ++ LF) [] (u8 "a{b}") (u8 "}c"));
    try (vm_compute; reflexivity);
    vm_compute; repeat (constructor; [split; discriminate|]); constructor.
Defined.

(** X15.  The number of slots is not checked.  A QA-pair template with a
    third slot raises [IndexError]; an input template without a slot is
    returned as it is, the formatted QA pair being dropped. *)
Theorem build_input_slot_count self sample w q a :
  field w sample (query_key (base self)) = Some (VStr q) ->
  field w sample (response_key (base self)) = Some (VStr a) ->
  (forall p0 p1 p2 p3,
     Forall (fun c => c <> 123 /\ c <> 125) p0 ->
     Forall (fun c => c <> 123 /\ c <> 125) p1 ->
     Forall (fun c => c <> 123 /\ c <> 125) p2 ->
     qa_pair_template self = p0 ++ u8 "{}" ++ p1 ++ u8 "{}" ++ p2 ++ u8 "{}" ++ p3 ->
     build_input self sample w = (Raise IndexError, w)) /\
  (forall p0 p1 p2,
     Forall (fun c => c <> 123 /\ c <> 125) p0 ->
     Forall (fun c => c <> 123 /\ c <> 125) p1 ->
     Forall (fun c => c <> 123 /\ c <> 125) p2 ->
     Forall (fun c => c <> 123 /\ c <> 125) (input_template self) ->
     qa_pair_template self = p0 ++ u8 "{}" ++ p1 ++ u8 "{}" ++ p2 ->
     build_input self sample w = (Ok (input_template self), w)).
Proof.
  intros Fq Fa. split.
  - intros p0 p1 p2 p3 F0 F1 F2 Hq. unfold build_input.
    rewrite bind_run, (getitem_field _ _ _ _ Fq).
    rewrite bind_run, (getitem_field _ _ _ _ Fa).
    rewrite Hq, bind_run. unfold lift at 1.
    rewrite format_plain_app by done. rewrite format_slot. cbn [format_value rbind].
    rewrite format_plain_app by done. rewrite format_slot. cbn [format_value rbind].
    rewrite format_plain_app by done. by rewrite format_slot_missing.
  - intros p0 p1 p2 F0 F1 F2 Fi Hq. unfold build_input.
    rewrite bind_run, (getitem_field _ _ _ _ Fq).
    rewrite bind_run, (getitem_field _ _ _ _ Fa).
    rewrite Hq, bind_run. unfold lift at 1.
    rewrite format_two_slots by done.
    rewrite bind_run. unfold lift at 1. by rewrite format_plain.
Qed.

Lemma build_input_slot_count_demo :
  build_input three_slot_self 1%positive demo_world = (Raise IndexError, demo_world).
Proof.
  apply (proj1 (build_input_slot_count three_slot_self 1%positive demo_world
                  (u8 "Q1") (u8 "A1") eq_refl eq_refl)
           (u8 "Q: ") (u8 " A: ") (u8 " ") []);
    try reflexivity;
    vm_compute; repeat (constructor; [split; discriminate|]); constructor.
Defined.

(** ** More on the constructor *)

Lemma init_pipeline_run E super_init cfg w :
  cfg_enable_vllm cfg = false ->
  __init__ E super_init cfg w
  = match keywords (pipeline_keywords (hf_model cfg))
            (default ∅ (cfg_model_params cfg)) with
    | Ok kw =>
        (match prepare_model E kw with
         | Ok key =>
             Ok {| base := super_init; num_proc := base_num_proc super_init;
                   system_prompt :=
                     or_default (cfg_system_prompt cfg) DEFAULT_SYSTEM_PROMPT;
                   input_template :=
                     or_default (cfg_input_template cfg) DEFAULT_INPUT_TEMPLATE;
                   qa_pair_template :=
                     or_default (cfg_qa_pair_template cfg) DEFAULT_QA_PAIR_TEMPLATE;
                   output_pattern :=
                     or_default (cfg_output_pattern cfg) DEFAULT_OUTPUT_PATTERN;
                   enable_vllm := false; model_key := key;
                   sampling_params :=
                     SamplingDict (default ∅ (cfg_sampling_params cfg)) |}
         | Raise e => Raise e
         end, after_prepare kw w)
    | Raise e => (Raise e, w)
    end.
Proof.
  intros Hv. unfold __init__. rewrite Hv, bind_run. unfold lift at 1.
  fold (pipeline_keywords (hf_model cfg)).
  destruct (keywords _ _) as [kw|e]; [|done].
  rewrite bind_run. unfold call_prepare_model at 1. fold (after_prepare kw w).
  by destruct (prepare_model E kw).
Qed.

(** The model parameters of the vLLM branch, after lines 84-88. *)
Lemma init_vllm_run E super_init cfg w :
  cfg_enable_vllm cfg = true ->
  (1 <= device_count E)%Z ->
  let mp := default ∅ (cfg_model_params cfg) in
  let dflt := get_is_None mp (u8 "tensor_parallel_size") in
  let mp' := if dflt
             then <[u8 "tensor_parallel_size" := VInt (device_count E)]> mp
             else mp in
  let w0 := if dflt
            then {| heap := heap w; log := log w ++ [Info (device_count E)];
                    prepared := prepared w; sent := sent w |}
            else w in
  __init__ E super_init cfg w
  = match keywords (vllm_keywords (hf_model cfg)) mp' with
    | Ok kw =>
        (match prepare_model E kw with
         | Ok key =>
             match SamplingParams E (default ∅ (cfg_sampling_params cfg)) with
             | Ok sp =>
                 Ok {| base := super_init; num_proc := Some 1%Z;
                       system_prompt :=
                         or_default (cfg_system_prompt cfg) DEFAULT_SYSTEM_PROMPT;
                       input_template :=
                         or_default (cfg_input_template cfg) DEFAULT_INPUT_TEMPLATE;
                       qa_pair_template :=
                         or_default (cfg_qa_pair_template cfg)
                           DEFAULT_QA_PAIR_TEMPLATE;
                       output_pattern :=
                         or_default (cfg_output_pattern cfg) DEFAULT_OUTPUT_PATTERN;
                       enable_vllm := true; model_key := key;
                       sampling_params := SamplingObject sp |}
             | Raise e => Raise e
             end
         | Raise e => Raise e
         end, after_prepare kw w0)
    | Raise e => (Raise e, w0)
    end.
Proof.
  intros Hv Hd mp dflt mp' w0. unfold __init__. rewrite Hv, bind_run.
  replace (1 <=? device_count E)%Z with true by (symmetry; by apply Z.leb_le).
  change (assert true "must be executed in CUDA" w) with (Ok tt, w). cbv iota.
  rewrite bind_run. fold mp. fold dflt.
  assert (Hm : (if dflt
                then logger_info (device_count E)
                     ≫= (fun _ => mret (<[u8 "tensor_parallel_size"
                                           := VInt (device_count E)]> mp))
                else mret mp) w = (Ok mp', w0)).
  { subst mp' w0. by destruct dflt. }
  rewrite Hm. rewrite bind_run. unfold lift at 1.
  fold (vllm_keywords (hf_model cfg)).
  destruct (keywords _ mp') as [kw|e]; [|done].
  rewrite bind_run. unfold call_prepare_model at 1. fold (after_prepare kw w0).
  destruct (prepare_model E kw) as [key|e]; [|done].
  rewrite bind_run. unfold lift at 1.
  by destruct (SamplingParams E _).
Qed.

Lemma keywords_ok explicit extra kw :
  keywords explicit extra = Ok kw ->
  kw = list_to_map explicit ∪ extra /\
  forall k v, In (k, v) explicit -> extra !! k = None.
Proof.
  unfold keywords. destruct (existsb _ explicit) eqn:Hex; [done|].
  intros [= <-]. split; [done|]. intros k v Hin.
  destruct (extra !! k) as [x|] eqn:Hk; [|done].
  assert (existsb (fun kv => bool_decide (is_Some (extra !! kv.1))) explicit = true);
    [|congruence].
  apply existsb_exists. exists (k, v). split; [done|].
  apply bool_decide_eq_true_2. simpl. by rewrite Hk.
Qed.

Lemma keywords_clash explicit extra k v :
  In (k, v) explicit -> is_Some (extra !! k) ->
  keywords explicit extra
  = Raise (TypeError "got multiple values for keyword argument").
Proof.
  intros Hin Hk. unfold keywords.
  replace (existsb _ explicit) with true; [done|].
  symmetry. apply existsb_exists. exists (k, v). split; [done|].
  by apply bool_decide_eq_true_2.
Qed.

Lemma init_vllm_needs_cuda E super_init cfg w self w' :
  cfg_enable_vllm cfg = true ->
  __init__ E super_init cfg w = (Ok self, w') ->
  (1 <= device_count E)%Z.
Proof.
  intros Hv. unfold __init__. rewrite Hv, bind_run.
  destruct (1 <=? device_count E)%Z eqn:Hd; [intros _; by apply Z.leb_le|done].
Qed.

Lemma key_names_distinct :
  u8 "model_type" <> u8 "pretrained_model_name_or_path" /\
  u8 "model_type" <> u8 "return_pipe" /\
  u8 "pretrained_model_name_or_path" <> u8 "return_pipe" /\
  u8 "tensor_parallel_size" <> u8 "model_type" /\
  u8 "tensor_parallel_size" <> u8 "pretrained_model_name_or_path" /\
  u8 "tensor_parallel_size" <> u8 "return_pipe".
Proof. repeat split; vm_compute; discriminate. Qed.






Lemma lookup_keywords_other (k1 k2 k : str) (v1 v2 : value)
    (m : gmap str value) :
  k <> k1 -> k <> k2 ->
  (list_to_map [(k1, v1); (k2, v2)] ∪ m) !! k = m !! k.
Proof.
  intros H1 H2. apply lookup_union_r. cbn [list_to_map foldr].
  rewrite lookup_insert_ne by (intros Heq; apply H1; symmetry; exact Heq).
  rewrite lookup_insert_ne by (intros Heq; apply H2; symmetry; exact Heq).
  apply lookup_empty.
Qed.

(** X17.  On the vLLM backend, [tensor_parallel_size] is passed to
    [prepare_model] as given when the model parameters hold it with a value
    other than [None]; otherwise it is set to the number of CUDA devices, and
    that number is logged.  Every other model parameter is passed as it is. *)
Theorem init_tensor_parallel_size E super_init cfg w self w' :
  cfg_enable_vllm cfg = true ->
  __init__ E super_init cfg w = (Ok self, w') ->
  let mp := default ∅ (cfg_model_params cfg) in
  exists kw,
    prepared w' = prepared w ++ [kw] /\
    (get_is_None mp (u8 "tensor_parallel_size") = true ->
     kw !! u8 "tensor_parallel_size" = Some (VInt (device_count E)) /\
     log w' = log w ++ [Info (device_count E)]) /\
    (get_is_None mp (u8 "tensor_parallel_size") = false ->
     kw !! u8 "tensor_parallel_size" = mp !! u8 "tensor_parallel_size" /\
     log w' = log w) /\
    (forall k, k <> u8 "model_type" ->
               k <> u8 "pretrained_model_name_or_path" ->
               k <> u8 "tensor_parallel_size" ->
               kw !! k = mp !! k).
Proof.
  pose proof key_names_distinct as (_ & _ & _ & N4 & N5 & _).
  intros Hv H mp.
  pose proof (init_vllm_needs_cuda _ _ _ _ _ _ Hv H) as Hd.
  rewrite (init_vllm_run E super_init cfg w Hv Hd) in H. fold mp in H.
  destruct (keywords _ _) as [kw|e] eqn:Hk; [|discriminate H].
  destruct (prepare_model E kw) as [key|e] eqn:Hp; [|discriminate H].
  destruct (SamplingParams E _) as [sp|e]; [|discriminate H].
  injection H as <- <-. exists kw.
  apply keywords_ok in Hk as [-> _]. unfold vllm_keywords.
  pose proof (fun (m : gmap str value) k =>
                lookup_keywords_other (u8 "model_type")
                  (u8 "pretrained_model_name_or_path") k
                  (VStr (u8 "vllm")) (VStr (hf_model cfg)) m) as Hout.
  destruct (get_is_None mp (u8 "tensor_parallel_size")) eqn:Hn.
  - split; [reflexivity|]. split; [|split; [intros [=]|]].
    + intros _. split; [|reflexivity].
      rewrite (Hout _ _ N4 N5). apply lookup_insert_eq.
    + intros k H1 H2 H3. rewrite (Hout _ _ H1 H2).
      apply lookup_insert_ne. intros Heq. apply H3. symmetry. exact Heq.
  - split; [reflexivity|]. split; [intros [=]|split].
    + intros _. split; [|reflexivity]. exact (Hout _ _ N4 N5).
    + intros k H1 H2 _. exact (Hout _ _ H1 H2).
Qed.

Lemma init_tensor_parallel_size_demo :
  match __init__ (demo_env 2 []) demo_base (demo_cfg true) demo_world with
  | (Ok self, w') =>
      exists kw,
        prepared w' = prepared demo_world ++ [kw] /\
        kw !! u8 "tensor_parallel_size" = Some (VInt 2) /\
        log w' = log demo_world ++ [Info 2]
  | (Raise _, _) => False
  end.
Proof.
  destruct (__init__ (demo_env 2 []) demo_base (demo_cfg true) demo_world)
    as [[self|e] w'] eqn:H; [|vm_compute in H; discriminate].
  destruct (init_tensor_parallel_size (demo_env 2 []) demo_base (demo_cfg true)
              demo_world self w' eq_refl H)
    as (kw & Hp & Hdflt & _).
  exists kw. split; [exact Hp|]. apply Hdflt. reflexivity.
Defined.

(** X18.  Model parameters that themselves hold a keyword the constructor
    passes to [prepare_model] make the call a [TypeError], before any model
    is prepared: [model_type] and [pretrained_model_name_or_path] on both
    backends, [return_pipe] on the pipeline backend. *)
Theorem init_model_params_clash E super_init cfg w k :
  is_Some (default ∅ (cfg_model_params cfg) !! k) ->
  (cfg_enable_vllm cfg = false ->
   k = u8 "model_type" \/ k = u8 "pretrained_model_name_or_path"
   \/ k = u8 "return_pipe" ->
   __init__ E super_init cfg w
   = (Raise (TypeError "got multiple values for keyword argument"), w)) /\
  (cfg_enable_vllm cfg = true ->
   (1 <= device_count E)%Z ->
   k = u8 "model_type" \/ k = u8 "pretrained_model_name_or_path" ->
   (__init__ E super_init cfg w).1
   = Raise (TypeError "got multiple values for keyword argument") /\
   prepared (__init__ E super_init cfg w).2 = prepared w).
Proof.
  intros Hk. split.
  - intros Hv Hin. rewrite (init_pipeline_run E super_init cfg w Hv).
    assert (exists v, In (k, v) (pipeline_keywords (hf_model cfg))) as [v Hv'].
    { unfold pipeline_keywords. destruct Hin as [-> | [-> | ->]].
      - eexists. left. reflexivity.
      - eexists. right. left. reflexivity.
      - eexists. right. right. left. reflexivity. }
    by rewrite (keywords_clash _ _ k v Hv' Hk).
  - intros Hv Hd Hin. rewrite (init_vllm_run E super_init cfg w Hv Hd).
    assert (exists v, In (k, v) (vllm_keywords (hf_model cfg))) as [v Hv'].
    { unfold vllm_keywords. destruct Hin as [-> | ->].
      - eexists. left. reflexivity.
      - eexists. right. left. reflexivity. }
    erewrite (keywords_clash _ _ k v Hv').
    + split; [reflexivity|]. by destruct (get_is_None _ _).
    + destruct (get_is_None _ _); [|exact Hk].
      apply lookup_insert_is_Some'. by right.
Qed.

Lemma init_model_params_clash_demo :
  __init__ (demo_env 0 []) demo_base clash_cfg demo_world
  = (Raise (TypeError "got multiple values for keyword argument"), demo_world).
Proof.
  assert (Hk : is_Some (default ∅ (cfg_model_params clash_cfg) !! u8 "model_type")).
  { exists (VStr (u8 "x")). unfold clash_cfg. cbn [cfg_model_params default].
    apply lookup_singleton_eq. }
  exact (proj1 (init_model_params_clash (demo_env 0 []) demo_base clash_cfg
                  demo_world (u8 "model_type") Hk) eq_refl (or_introl eq_refl)).
Defined.

(** X19.  The sampling parameters default to an empty dict.  The pipeline
    backend keeps the dict itself; the vLLM backend keeps the object
    [vllm.SamplingParams] built from it. *)
Theorem init_sampling_params E super_init cfg w self w' :
  __init__ E super_init cfg w = (Ok self, w') ->
  let sp := default ∅ (cfg_sampling_params cfg) in
  (cfg_enable_vllm cfg = false -> sampling_params self = SamplingDict sp) /\
  (cfg_enable_vllm cfg = true ->
   exists o, SamplingParams E sp = Ok o /\ sampling_params self = SamplingObject o).
Proof.
  intros H sp. split; intros Hv.
  - rewrite (init_pipeline_run E super_init cfg w Hv) in H.
    destruct (keywords _ _) as [kw|e]; [|discriminate H].
    destruct (prepare_model E kw) as [key|e]; [|discriminate H].
    by injection H as <- _.
  - pose proof (init_vllm_needs_cuda _ _ _ _ _ _ Hv H) as Hd.
    rewrite (init_vllm_run E super_init cfg w Hv Hd) in H.
    destruct (keywords _ _) as [kw|e]; [|discriminate H].
    destruct (prepare_model E kw) as [key|e]; [|discriminate H].
    fold sp in H. destruct (SamplingParams E sp) as [o|e]; [|discriminate H].
    injection H as <- _. by exists o.
Qed.

Lemma init_sampling_params_demo :
  match __init__ (demo_env 0 []) demo_base (demo_cfg false) demo_world with
  | (Ok self, _) =>
      sampling_params self
      = SamplingDict (default ∅ (cfg_sampling_params (demo_cfg false)))
  | (Raise _, _) => False
  end.
Proof.
  destruct (__init__ (demo_env 0 []) demo_base (demo_cfg false) demo_world)
    as [[self|e] w'] eqn:H; [|vm_compute in H; discriminate].
  exact (proj1 (init_sampling_params (demo_env 0 []) demo_base (demo_cfg false)
                  demo_world self w' H) eq_refl).
Defined.
